(** * Uranium: the operation stack and the backend's vertex decoders

    A shallow embedding of [UM/Operations/OperationStack.py] and of the two
    buffer decoders of [UM/Backend/Backend.py], with the properties their
    specification states about them.

    - Python lists are [list]s read through Python's index rules
      (negative indices count from the end, slices clamp, a bad index
      raises [IndexError]).
    - The stack object is a record; its methods run in a small state and
      exception monad.  The lock is a field of the state, so a call made
      while another holder has the lock is a call on a state whose [_lock]
      is [true].
    - Calls that leave the stack ([operation.redo()], [operation.undo()],
      [op1.mergeWith(op2)], [changed.emit()]) are recorded, in order, in a
      ghost field [effects].
    - Time stamps are binary64 floats, as Python's are. *)

From Stdlib Require Import ZArith Lia Floats.
From Stdlib Require Strings.String Strings.Byte.
Import String.StringSyntax.
Delimit Scope string_scope with string.
From stdpp Require Import base list gmap.

Open Scope Z_scope.

(** ** Python list primitives *)

Module PyList.

Section Defs.
Context {A : Type}.

(** [len(l)] *)
Definition len (l : list A) : Z := Z.of_nat (length l).

(** The position an index [i] denotes in [l]: a negative index counts from
    the end; [None] is Python's [IndexError]. *)
Definition position (l : list A) (i : Z) : option nat :=
  let j := if i <? 0 then i + len l else i in
  if (0 <=? j) && (j <? len l) then Some (Z.to_nat j) else None.

(** [l[i]] *)
Definition getitem (l : list A) (i : Z) : option A :=
  n ← position l i; l !! n.

(** [del l[i]] *)
Definition delitem (l : list A) (i : Z) : option (list A) :=
  n ← position l i; Some (delete n l).

(** A slice bound, clamped into [0 .. len(l)]. *)
Definition clamp (l : list A) (i : Z) : nat :=
  if i <? 0 then Z.to_nat (Z.max 0 (i + len l))
  else Z.to_nat (Z.min i (len l)).

(** [del l[a:b]]; nothing is deleted when the slice is empty. *)
Definition delslice (l : list A) (a b : Z) : list A :=
  let a' := clamp l a in
  let b' := clamp l b in
  if (a' <? b')%nat then take a' l ++ drop b' l else l.

(** [l[a:b]] *)
Definition slice (l : list A) (a b : Z) : list A :=
  let a' := clamp l a in
  let b' := clamp l b in
  take (b' - a') (drop a' l).

(** [l.append(x)] *)
Definition append (l : list A) (x : A) : list A := l ++ [x].
End Defs.

End PyList.

(** ** Operations

  The [Operation] class is not part of the sources at hand; the stack uses
  three of its members, which are taken as an interface.  [redo()] and
  [undo()] act outside the stack and are recorded as effects. *)

Class Operation (O : Type) := {
_timestamp : O → float;
_always_merge : O → bool;
mergeWith : O → O → option O
}.

Module OperationStack.

Inductive exn := IndexError.

Inductive outcome (A : Type) :=
| Returned (a : A)
| Raised (e : exn)
| Blocked.
Arguments Returned {A} a.
Arguments Raised {A} e.
Arguments Blocked {A}.

Section Stack.
Context {O : Type} `{Operation O}.

(** What a method does outside the stack object. *)
Inductive effect :=
| call_redo (operation : O)
| call_undo (operation : O)
| call_mergeWith (op1 op2 : O)
| changed_emit.

Record OperationStack := mkStack {
  _operations : list O;
  _current_index : Z;
  _lock : bool;
  effects : list effect
}.

(** [__init__] *)
Definition init : OperationStack :=
  {| _operations := []; _current_index := -1; _lock := false;
     effects := [] |}.

Definition _merge_window : float := 1.0%float.

(** *** The monad of method bodies *)

Definition M (A : Type) : Type := OperationStack → outcome A * OperationStack.

Definition ret {A} (a : A) : M A := λ s, (Returned a, s).

Definition bind {A B} (m : M A) (k : A → M B) : M B :=
  λ s, match m s with
       | (Returned a, s') => k a s'
       | (Raised e, s') => (Raised e, s')
       | (Blocked, s') => (Blocked, s')
       end.

Definition raise {A} (e : exn) : M A := λ s, (Raised e, s).

(** [try: body finally: cleanup] *)
Definition try_finally {A} (body : M A) (cleanup : M unit) : M A :=
  λ s, match body s with
       | (r, s') =>
           match cleanup s' with
           | (Returned _, s'') => (r, s'')
           | (Raised e, s'') => (Raised e, s'')
           | (Blocked, s'') => (Blocked, s'')
           end
       end.

Local Notation "x <- m ;; k" := (bind m (λ x, k))
  (at level 100, m at next level, right associativity).
Local Notation "m ;;; k" := (bind m (λ _, k))
  (at level 100, right associativity).

Definition get_operations : M (list O) := λ s, (Returned (_operations s), s).
Definition get_current_index : M Z := λ s, (Returned (_current_index s), s).

Definition set_operations (l : list O) : M unit :=
  λ s, (Returned tt, {| _operations := l; _current_index := _current_index s;
                        _lock := _lock s; effects := effects s |}).

Definition set_current_index (i : Z) : M unit :=
  λ s, (Returned tt, {| _operations := _operations s; _current_index := i;
                        _lock := _lock s; effects := effects s |}).

Definition perform (e : effect) : M unit :=
  λ s, (Returned tt, {| _operations := _operations s;
                        _current_index := _current_index s;
                        _lock := _lock s; effects := effects s ++ [e] |}).

Definition of_option {A} (o : option A) : M A :=
  match o with Some a => ret a | None => raise IndexError end.

(** [self._lock.acquire(False)]: takes the lock when it is free and says
    whether it did. *)
Definition lock_acquire_nonblocking : M bool :=
  λ s, if _lock s then (Returned false, s)
       else (Returned true, {| _operations := _operations s;
                               _current_index := _current_index s;
                               _lock := true; effects := effects s |}).

(** [self._lock.acquire()]: waits while the lock is held. *)
Definition lock_acquire : M unit :=
  λ s, if _lock s then (Blocked, s)
       else (Returned tt, {| _operations := _operations s;
                             _current_index := _current_index s;
                             _lock := true; effects := effects s |}).

Definition lock_release : M unit :=
  λ s, (Returned tt, {| _operations := _operations s;
                        _current_index := _current_index s;
                        _lock := false; effects := effects s |}).

(** [with self._lock: body] *)
Definition with_lock {A} (body : M A) : M A :=
  lock_acquire ;;; try_finally body lock_release.

(** *** Methods *)

(** The test of lines 104-105: both operations are ordinary and were made
    more than the merge window apart. *)
Definition too_far_apart (op1 op2 : O) : bool :=
  if negb (_always_merge op1) && negb (_always_merge op2) then
    PrimFloat.ltb _merge_window
      (PrimFloat.abs (PrimFloat.sub (_timestamp op1) (_timestamp op2)))
  else false.

(** [if merged:] holds of an operation and fails of [None]. *)
Definition _doMerge : M unit :=
  ops <- get_operations ;;
  if 2 <=? PyList.len ops then
    ci <- get_current_index ;;
    op1 <- of_option (PyList.getitem ops ci) ;;
    op2 <- of_option (PyList.getitem ops (ci - 1)) ;;
    if too_far_apart op1 op2 then ret tt
    else
      perform (call_mergeWith op1 op2) ;;;
      match mergeWith op1 op2 with
      | Some merged =>
          (ops <- get_operations ;; ci <- get_current_index ;;
           ops' <- of_option (PyList.delitem ops ci) ;;
           set_operations ops') ;;;
          (ops <- get_operations ;; ci <- get_current_index ;;
           ops' <- of_option (PyList.delitem ops (ci - 1)) ;;
           set_operations ops') ;;;
          (ci <- get_current_index ;; set_current_index (ci - 1)) ;;;
          (ops <- get_operations ;;
           set_operations (PyList.append ops merged))
      | None => ret tt
      end
  else ret tt.

(** Lines 34-39 of [push]: drop the redo tail, append, apply, advance. *)
Definition push_record (operation : O) : M unit :=
  (ci <- get_current_index ;; ops <- get_operations ;;
   if ci <? PyList.len ops - 1 then
     set_operations (PyList.delslice ops (ci + 1) (PyList.len ops))
   else ret tt) ;;;
  (ops <- get_operations ;;
   set_operations (PyList.append ops operation)) ;;;
  perform (call_redo operation) ;;;
  (ci <- get_current_index ;; set_current_index (ci + 1)).

Definition push (operation : O) : M unit :=
  acquired <- lock_acquire_nonblocking ;;
  if negb acquired then ret tt
  else
    try_finally
      (push_record operation ;;;
       _doMerge ;;;
       perform changed_emit)
      lock_release.

Definition undo : M unit :=
  with_lock
    (ci <- get_current_index ;; ops <- get_operations ;;
     if (0 <=? ci) && (ci <? PyList.len ops) then
       operation <- of_option (PyList.getitem ops ci) ;;
       perform (call_undo operation) ;;;
       (ci <- get_current_index ;; set_current_index (ci - 1)) ;;;
       perform changed_emit
     else ret tt).

Definition redo : M unit :=
  with_lock
    (ci <- get_current_index ;;
     let n := ci + 1 in
     ops <- get_operations ;;
     if (0 <=? n) && (n <? PyList.len ops) then
       operation <- of_option (PyList.getitem ops n) ;;
       perform (call_redo operation) ;;;
       (ci <- get_current_index ;; set_current_index (ci + 1)) ;;;
       perform changed_emit
     else ret tt).

Definition getOperations : M (list O) :=
  with_lock get_operations.

Definition canUndo (s : OperationStack) : bool := 0 <=? _current_index s.

Definition canRedo (s : OperationStack) : bool :=
  _current_index s <? PyList.len (_operations s) - 1.

(** *** Vocabulary of the properties *)

(** The invariant of the data model. *)
Definition consistent (s : OperationStack) : Prop :=
  -1 <= _current_index s <= PyList.len (_operations s) - 1.

(** The state a call leaves and the way it ended. *)
Definition after {A} (m : M A) (s : OperationStack) : OperationStack :=
  snd (m s).
Definition ending {A} (m : M A) (s : OperationStack) : outcome A :=
  fst (m s).

(** One push after the other. *)
Fixpoint pushes (l : list O) : M unit :=
  match l with
  | [] => ret tt
  | operation :: rest => push operation ;;; pushes rest
  end.

(** What a call added to the record of effects. *)
Definition added (s s' : OperationStack) : list effect :=
  drop (length (effects s)) (effects s').

Definition is_redo (e : effect) : bool :=
  match e with call_redo _ => true | _ => false end.
Definition is_undo (e : effect) : bool :=
  match e with call_undo _ => true | _ => false end.
Definition is_mergeWith (e : effect) : bool :=
  match e with call_mergeWith _ _ => true | _ => false end.
Definition is_emit (e : effect) : bool :=
  match e with changed_emit => true | _ => false end.

(** A [mergeWith] call that handed back an operation. *)
Definition is_merge (e : effect) : bool :=
  match e with
  | call_mergeWith op1 op2 =>
      match mergeWith op1 op2 with Some _ => true | None => false end
  | _ => false
  end.

Definition count (p : effect → bool) (es : list effect) : nat :=
  length (List.filter p es).

(** [abs(op1.timestamp - op2.timestamp)] *)
Definition distance (op1 op2 : O) : float :=
  PrimFloat.abs (PrimFloat.sub (_timestamp op1) (_timestamp op2)).

(** The same call [n] times over. *)
Fixpoint times (n : nat) (m : M unit) : M unit :=
  match n with
  | 0%nat => ret tt
  | S n' => m ;;; times n' m
  end.

(** The calls of [undo()] (respectively [redo()]) and the notifications
    that walking over the operations [l], in this order, makes. *)
Definition undone (l : list O) : list effect :=
  l ≫= λ operation, [call_undo operation; changed_emit].
Definition redone (l : list O) : list effect :=
  l ≫= λ operation, [call_redo operation; changed_emit].

(** A caller's requests, served one after the other. *)
Inductive request :=
| do_push (operation : O)
| do_undo
| do_redo.

Definition serve (r : request) : M unit :=
  match r with
  | do_push operation => push operation
  | do_undo => undo
  | do_redo => redo
  end.

Fixpoint serve_all (rs : list request) : M unit :=
  match rs with
  | [] => ret tt
  | r :: rest => serve r ;;; serve_all rest
  end.

End Stack.

Arguments OperationStack O : clear implicits.
Arguments effect O : clear implicits.
Arguments request O : clear implicits.

End OperationStack.

(** ** The backend's buffer decoders *)

Module Backend.

Inductive exn := StructError.

Inductive result (A : Type) :=
| Return (a : A)
| Raise (e : exn).
Arguments Return {A} a.
Arguments Raise {A} e.

Inductive byteorder := little_endian | big_endian.

(** A line written by [Logger.log(level, message)]. *)
Definition log_entry : Type := (String.string * String.string)%type.

Definition byte_value (b : Byte.byte) : Z := Z.of_N (Byte.to_N b).

(** The unsigned number held by bytes, least significant byte first. *)
Fixpoint le_value (bs : list Byte.byte) : Z :=
match bs with
| [] => 0
| b :: rest => byte_value b + 256 * le_value rest
end.

(** The value of an IEEE 754 binary32 bit pattern. *)
Definition binary32 (w : Z) : spec_float :=
let sign := Z.testbit w 31 in
let e := Z.land (Z.shiftr w 23) 255 in
let m := Z.land w (2 ^ 23 - 1) in
if e =? 255 then
  if m =? 0 then S754_infinity sign else S754_nan
else if e =? 0 then
  match m with
  | Zpos p => S754_finite sign p (-149)
  | _ => S754_zero sign
  end
else
  match m + 2 ^ 23 with
  | Zpos p => S754_finite sign p (e - 150)
  | _ => S754_zero sign
  end.

(** [n] consecutive groups of [k] elements. *)
Fixpoint groups {A} (k n : nat) (l : list A) : list (list A) :=
match n with
| O => []
| S n' => take k l :: groups k n' (drop k l)
end.

(** The [i]-th record of [4 * n] bytes of a buffer. *)
Definition record_at {A} (n : nat) (data : list A) (i : nat) : list A :=
take (4 * n) (drop (i * (4 * n)) data).

Section Decoders.
(** [struct]'s native byte order, that of the machine. *)
Variable native : byteorder.

Definition word_of_bytes (bs : list Byte.byte) : Z :=
  match native with
  | little_endian => le_value bs
  | big_endian => le_value (rev bs)
  end.

(** One ['f'] field: four bytes read as a binary32, held as a Python
    float of the same value. *)
Definition unpack_f (bs : list Byte.byte) : float :=
  SF2Prim (binary32 (word_of_bytes bs)).

(** [struct.unpack('f' * n, buffer)]: a tuple of [n] floats, or
    [struct.error] when the buffer is not [4 * n] bytes long. *)
Definition unpack (n : nat) (buffer : list Byte.byte) : result (list float) :=
  if (length buffer =? 4 * n)%nat then
    Return (unpack_f <$> groups 4 n buffer)
  else Raise StructError.

(** [for index in indices: result.append(struct.unpack(fmt, data[index*size:index*size+size]))],
    [size] being [4 * n]. *)
Fixpoint unpack_loop (n : nat) (data : list Byte.byte) (indices : list Z)
    (result : list (list float)) : Backend.result (list (list float)) :=
  match indices with
  | [] => Return result
  | index :: rest =>
      let size := 4 * Z.of_nat n in
      match unpack n (PyList.slice data (index * size) (index * size + size)) with
      | Return vertex => unpack_loop n data rest (PyList.append result vertex)
      | Raise e => Raise e
      end
  end.

(** [range(0, stop)] *)
Definition range0 (stop : Z) : list Z :=
  Z.of_nat <$> seq 0 (Z.to_nat stop).

(** The body shared by the two decoders, [n] floats to a record.
    [int(len(data) / size)] is a float division; it is the exact quotient
    for every length below 2^53, which covers every buffer that fits in
    memory.  [data] is a bytes object, so [data is not None] holds. *)
Definition convert (n : nat) (data : list Byte.byte)
    : Backend.result (option (list (list float))) * list log_entry :=
  let size := 4 * Z.of_nat n in
  let result := [] in
  if negb (negb (PyList.len data mod size =? 0)) then
    match unpack_loop n data (range0 (PyList.len data / size)) result with
    | Return result => (Return (Some result), [])
    | Raise e => (Raise e, [])
    end
  else
    (Return None,
     [("e"%string, "Data length was incorrect for requested type"%string)]).

(** The [n] floats held by the [i]-th record. *)
Definition vertex_at (n : nat) (data : list Byte.byte) (i : nat)
    : list float :=
  unpack_f <$> groups 4 n (record_at n data i).

Definition incorrect_length : list log_entry :=
  [("e"%string, "Data length was incorrect for requested type"%string)].

Definition convertBytesToVerticeList (data : list Byte.byte) :=
  convert 3 data.

Definition convertBytesToVerticeWithNormalsList (data : list Byte.byte) :=
  convert 6 data.
End Decoders.

(** *** Dispatch of incoming messages

    The socket and the handlers live outside these sources: the socket is
    an abstract value with its [takeNextMessage], a handler is a value whose
    call is recorded.  [type] gives the class of a message, the key of the
    handler dict. *)
Section Messages.
Context {K : Type} `{Countable K} {Message Handler Socket : Type}.
Variable type : Message → K.
Variable takeNextMessage : Socket → Message * Socket.

Inductive message_effect :=
| call_handler (handler : Handler) (message : Message)
| log_error (format : String.string) (argument : K).

Record Backend := mkBackend {
  _message_handlers : gmap K Handler;
  _socket : Socket
}.

(** [if type(message) not in self._message_handlers] and the lookup
    [self._message_handlers[type(message)]] are one lookup. *)
Definition _onMessageReceived (self : Backend)
    : Backend * list message_effect :=
  let (message, socket) := takeNextMessage (_socket self) in
  let self := mkBackend (_message_handlers self) socket in
  match _message_handlers self !! type message with
  | None =>
      (self,
       [log_error "No handler defined for message of type %s"%string
          (type message)])
  | Some handler => (self, [call_handler handler message])
  end.
End Messages.

End Backend.

(** ** A concrete operation type, for running the stack *)

Module Sample.

Inductive kind := Translate | Rotate.

Definition kind_eqb (a b : kind) : bool :=
match a, b with
| Translate, Translate | Rotate, Rotate => true
| _, _ => false
end.

Record operation := mkOp {
what : kind;
amount : Z;
made_at : float;
always : bool
}.

(** Two operations of the same kind fold into one. *)
#[export] Instance sample_operation : Operation operation := {|
_timestamp := made_at;
_always_merge := always;
mergeWith := λ a b,
  if kind_eqb (what a) (what b) then
    Some (mkOp (what a) (amount a + amount b) (made_at a) (always a))
  else None
|}.

Definition move_a : operation := mkOp Translate 1 10.0%float false.
Definition move_b : operation := mkOp Translate 2 10.25%float false.
Definition move_late : operation := mkOp Translate 4 15.0%float false.
Definition move_edge : operation := mkOp Translate 8 11.0%float false.
Definition move_past_edge : operation := mkOp Translate 16 11.5%float false.
Definition turn_c : operation := mkOp Rotate 90 10.5%float true.

(** Two operations applied, the cursor on the first: one redo is pending. *)
Definition stack_with_tail : OperationStack.OperationStack operation :=
OperationStack.mkStack [move_a; move_late] 0 false [].

(** Two operations applied, the cursor on the last. *)
Definition stack_of_two : OperationStack.OperationStack operation :=
OperationStack.mkStack [move_a; move_late] 1 false [].

(** Some other caller holds the lock. *)
Definition stack_in_use : OperationStack.OperationStack operation :=
OperationStack.mkStack [move_a] 0 true [].

(** One vertex: 1.0, -2.0 and 10.0, least significant byte first. *)
Definition one_vertex : list Byte.byte :=
[Byte.x00; Byte.x00; Byte.x80; Byte.x3f;
 Byte.x00; Byte.x00; Byte.x00; Byte.xc0;
 Byte.x00; Byte.x00; Byte.x20; Byte.x41].


(** The cursor has run past the end of the sequence. *)
Definition stack_past_end : OperationStack.OperationStack operation :=
  OperationStack.mkStack [move_a] 3 false [].

(** Two vertices, the second the same as the first. *)
Definition two_vertices : list Byte.byte := one_vertex ++ one_vertex.

(** A socket as the queue of the messages it holds, a message being the
    number of its class; an empty queue hands out class 0. *)
Definition take_first (queue : list nat) : nat * list nat :=
  match queue with
  | [] => (0%nat, [])
  | message :: rest => (message, rest)
  end.

(** One handler, number 10, for the messages of class 1. *)
Definition listening_backend
    : Backend.Backend (K:=nat) (Handler:=nat) (Socket:=list nat) :=
  Backend.mkBackend {[ 1%nat := 10%nat ]} [1%nat; 2%nat].

End Sample.

(** * Properties *)

(** ** Python lists *)

Section PyListFacts.
Context {A : Type}.
Implicit Types (l : list A) (i : Z).

Lemma position_nonneg l i :
  0 <= i < PyList.len l → PyList.position l i = Some (Z.to_nat i).
Proof.
  intros Hi. unfold PyList.position.
  destruct (Z.ltb_spec i 0); [lia|].
  destruct (Z.leb_spec 0 i); [|lia].
  destruct (Z.ltb_spec i (PyList.len l)); [reflexivity|lia].
Qed.

Lemma getitem_nonneg l i :
  0 <= i < PyList.len l → PyList.getitem l i = l !! Z.to_nat i.
Proof.
  intros Hi. unfold PyList.getitem. rewrite position_nonneg by done. done.
Qed.

Lemma getitem_is_Some l i :
  0 <= i < PyList.len l → is_Some (PyList.getitem l i).
Proof.
  intros Hi. rewrite getitem_nonneg by done.
  apply lookup_lt_is_Some. unfold PyList.len in Hi. lia.
Qed.

Lemma delitem_nonneg l i :
  0 <= i < PyList.len l →
  PyList.delitem l i = Some (delete (Z.to_nat i) l).
Proof.
  intros Hi. unfold PyList.delitem. rewrite position_nonneg by done. done.
Qed.

Lemma delitem_last l x :
  PyList.delitem (l ++ [x]) (PyList.len l) = Some l.
Proof.
  rewrite delitem_nonneg.
  - unfold PyList.len. rewrite Nat2Z.id, delete_middle. by rewrite app_nil_r.
  - unfold PyList.len. rewrite length_app. simpl. lia.
Qed.

Lemma len_app l k : PyList.len (l ++ k) = PyList.len l + PyList.len k.
Proof. unfold PyList.len. rewrite length_app. lia. Qed.

Lemma len_nonneg l : 0 <= PyList.len l.
Proof. unfold PyList.len. lia. Qed.

(** Deleting from [i] to the end keeps the first [i] elements. *)
Lemma delslice_tail l i :
  0 <= i < PyList.len l →
  PyList.delslice l i (PyList.len l) = take (Z.to_nat i) l.
Proof.
  intros Hi. unfold PyList.delslice, PyList.clamp.
  destruct (Z.ltb_spec i 0); [lia|].
  destruct (Z.ltb_spec (PyList.len l) 0); [lia|].
  rewrite Z.min_l by lia. rewrite Z.min_id.
  unfold PyList.len in *. rewrite Nat2Z.id.
  destruct (Nat.ltb_spec (Z.to_nat i) (length l)); [|lia].
  rewrite drop_all. apply app_nil_r.
Qed.

Lemma slice_nonneg l a b :
  0 <= a <= b → b <= PyList.len l →
  PyList.slice l a b = take (Z.to_nat (b - a)) (drop (Z.to_nat a) l).
Proof.
  intros Ha Hb. unfold PyList.slice, PyList.clamp.
  destruct (Z.ltb_spec a 0); [lia|].
  destruct (Z.ltb_spec b 0); [lia|].
  rewrite !Z.min_l by lia. f_equal. lia.
Qed.
End PyListFacts.

(** ** The operation stack: what the methods compute *)

Import OperationStack.

(** Runs the monadic plumbing of a method body, leaving list operations and
  tests in place. *)
Ltac run_body :=
cbv beta iota zeta delta
  [_doMerge push_record push undo redo getOperations with_lock try_finally
   bind ret raise of_option perform
   get_operations get_current_index set_operations set_current_index
   lock_acquire lock_acquire_nonblocking lock_release
   after ending added
   _operations _current_index _lock effects PyList.append negb fst snd].

Section StackRuns.
Context {O : Type} `{Operation O}.
Implicit Types (s : OperationStack O) (ops pre : list O) (ci : Z)
  (lk : bool) (es : list (effect O)) (op operation : O).

Lemma consistent_mk ops ci lk es :
  consistent (mkStack ops ci lk es) ↔ -1 <= ci <= PyList.len ops - 1.
Proof. reflexivity. Qed.

(** Lines 34-39 on a consistent stack. *)
Lemma push_record_run ops ci lk es operation :
  -1 <= ci <= PyList.len ops - 1 →
  push_record operation (mkStack ops ci lk es)
  = (Returned tt,
     mkStack (take (Z.to_nat (ci + 1)) ops ++ [operation]) (ci + 1) lk
       (es ++ [call_redo operation])).
Proof.
  intros Hci. run_body.
  destruct (Z.ltb_spec ci (PyList.len ops - 1)) as [Hlt|Hge]; run_body.
  - rewrite delslice_tail by lia. reflexivity.
  - rewrite (take_ge ops) by (unfold PyList.len in *; lia). reflexivity.
Qed.

(** [_doMerge] with fewer than two operations. *)
Lemma doMerge_run_short ops ci lk es :
  PyList.len ops < 2 →
  _doMerge (mkStack ops ci lk es) = (Returned tt, mkStack ops ci lk es).
Proof.
  intros Hlen. run_body.
  destruct (Z.leb_spec 2 (PyList.len ops)); [lia|reflexivity].
Qed.

(** [_doMerge] when the cursor is on the last of at least two operations. *)
Lemma doMerge_run_top pre op2 op1 lk es :
  _doMerge (mkStack (pre ++ [op2; op1]) (PyList.len pre + 1) lk es)
  = (Returned tt,
     if too_far_apart op1 op2 then
       mkStack (pre ++ [op2; op1]) (PyList.len pre + 1) lk es
     else
       match mergeWith op1 op2 with
       | Some merged =>
           mkStack (pre ++ [merged]) (PyList.len pre) lk
             (es ++ [call_mergeWith op1 op2])
       | None =>
           mkStack (pre ++ [op2; op1]) (PyList.len pre + 1) lk
             (es ++ [call_mergeWith op1 op2])
       end).
Proof.
  pose proof (len_nonneg pre) as Hpre.
  assert (Hlen : PyList.len (pre ++ [op2; op1]) = PyList.len pre + 2)
    by (rewrite len_app; reflexivity).
  assert (Hn1 : Z.to_nat (PyList.len pre + 1) = S (length pre))
    by (unfold PyList.len; lia).
  assert (Hn0 : Z.to_nat (PyList.len pre + 1 - 1) = length pre)
    by (unfold PyList.len; lia).
  assert (Hget1 : PyList.getitem (pre ++ [op2; op1]) (PyList.len pre + 1)
                  = Some op1).
  { rewrite getitem_nonneg by lia. rewrite Hn1.
    rewrite lookup_app_r by lia.
    replace (S (length pre) - length pre)%nat with 1%nat by lia. done. }
  assert (Hget2 : PyList.getitem (pre ++ [op2; op1]) (PyList.len pre + 1 - 1)
                  = Some op2).
  { rewrite getitem_nonneg by lia. rewrite Hn0.
    rewrite lookup_app_r by lia. rewrite Nat.sub_diag. done. }
  assert (Hdel1 : PyList.delitem (pre ++ [op2; op1]) (PyList.len pre + 1)
                  = Some (pre ++ [op2])).
  { rewrite delitem_nonneg by lia. rewrite Hn1.
    change (pre ++ [op2; op1]) with (pre ++ op2 :: [op1]).
    rewrite (cons_middle op2 pre [op1]), app_assoc.
    replace (S (length pre)) with (length (pre ++ [op2]))
      by (rewrite length_app; simpl; lia).
    rewrite delete_middle, app_nil_r. done. }
  assert (Hdel2 : PyList.delitem (pre ++ [op2]) (PyList.len pre + 1 - 1)
                  = Some pre).
  { rewrite delitem_nonneg by (rewrite len_app; change (PyList.len [op2]) with 1; lia).
    rewrite Hn0, delete_middle, app_nil_r. done. }
  run_body.
  destruct (Z.leb_spec 2 (PyList.len (pre ++ [op2; op1]))); [|lia].
  rewrite Hget1, Hget2. run_body.
  destruct (too_far_apart op1 op2); [reflexivity|].
  destruct (mergeWith op1 op2) as [merged|]; [|reflexivity].
  rewrite Hdel1. run_body. rewrite Hdel2. run_body.
  do 3 f_equal. lia.
Qed.

(** [_doMerge] right after lines 34-39 pushed [operation] onto [op2]. *)
Lemma doMerge_after_record ops ci lk es operation op2 :
  0 <= ci <= PyList.len ops - 1 →
  ops !! Z.to_nat ci = Some op2 →
  _doMerge (mkStack (take (Z.to_nat (ci + 1)) ops ++ [operation]) (ci + 1)
              lk es)
  = (Returned tt,
     if too_far_apart operation op2 then
       mkStack (take (Z.to_nat (ci + 1)) ops ++ [operation]) (ci + 1) lk es
     else
       match mergeWith operation op2 with
       | Some merged =>
           mkStack (take (Z.to_nat ci) ops ++ [merged]) ci lk
             (es ++ [call_mergeWith operation op2])
       | None =>
           mkStack (take (Z.to_nat (ci + 1)) ops ++ [operation]) (ci + 1) lk
             (es ++ [call_mergeWith operation op2])
       end).
Proof.
  intros Hci Hop2.
  replace (Z.to_nat (ci + 1)) with (S (Z.to_nat ci)) by lia.
  rewrite (take_S_r ops (Z.to_nat ci) op2 Hop2), <- app_assoc.
  change ([op2] ++ [operation]) with [op2; operation].
  remember (take (Z.to_nat ci) ops) as pre eqn:Hpre.
  assert (Hlen : ci = PyList.len pre).
  { subst pre. unfold PyList.len in *. rewrite length_take. lia. }
  clear Hpre Hop2 Hci. subst ci. apply doMerge_run_top.
Qed.

(** [push] on an unlocked stack with nothing applied. *)
Lemma push_run_alone ops es operation :
  push operation (mkStack ops (-1) false es)
  = (Returned tt,
     mkStack [operation] 0 false (es ++ [call_redo operation; changed_emit])).
Proof.
  pose proof (len_nonneg ops) as Hlen.
  unfold push, bind, lock_acquire_nonblocking, try_finally.
  cbn [_lock negb _operations _current_index effects].
  rewrite push_record_run by lia.
  change (Z.to_nat (-1 + 1)) with 0%nat. rewrite take_0, app_nil_l.
  rewrite doMerge_run_short by (unfold PyList.len; simpl; lia).
  run_body. rewrite <- app_assoc. reflexivity.
Qed.

(** [push] on an unlocked stack whose most recent operation is [op2]. *)
Lemma push_run_onto ops ci es operation op2 :
  0 <= ci <= PyList.len ops - 1 →
  ops !! Z.to_nat ci = Some op2 →
  push operation (mkStack ops ci false es)
  = (Returned tt,
     if too_far_apart operation op2 then
       mkStack (take (Z.to_nat (ci + 1)) ops ++ [operation]) (ci + 1) false
         (es ++ [call_redo operation; changed_emit])
     else
       match mergeWith operation op2 with
       | Some merged =>
           mkStack (take (Z.to_nat ci) ops ++ [merged]) ci false
             (es ++ [call_redo operation; call_mergeWith operation op2;
                     changed_emit])
       | None =>
           mkStack (take (Z.to_nat (ci + 1)) ops ++ [operation]) (ci + 1)
             false
             (es ++ [call_redo operation; call_mergeWith operation op2;
                     changed_emit])
       end).
Proof.
  intros Hci Hop2.
  unfold push, bind, lock_acquire_nonblocking, try_finally.
  cbn [_lock negb _operations _current_index effects].
  rewrite push_record_run by lia.
  rewrite (doMerge_after_record _ _ _ _ _ op2) by done.
  destruct (too_far_apart operation op2);
    [|destruct (mergeWith operation op2)];
    run_body; rewrite <- ?app_assoc; reflexivity.
Qed.

(** [push] while the lock is held. *)
Lemma push_run_locked ops ci es operation :
  push operation (mkStack ops ci true es)
  = (Returned tt, mkStack ops ci true es).
Proof. reflexivity. Qed.

Lemma undo_run_blocked ops ci es :
  undo (mkStack ops ci true es) = (Blocked, mkStack ops ci true es).
Proof. reflexivity. Qed.

Lemma undo_run_nothing ops ci es :
  ¬ (0 <= ci < PyList.len ops) →
  undo (mkStack ops ci false es) = (Returned tt, mkStack ops ci false es).
Proof.
  intros Hci. run_body.
  destruct (Z.leb_spec 0 ci), (Z.ltb_spec ci (PyList.len ops));
    solve [lia | reflexivity].
Qed.

Lemma undo_run_step ops ci es operation :
  0 <= ci < PyList.len ops →
  ops !! Z.to_nat ci = Some operation →
  undo (mkStack ops ci false es)
  = (Returned tt,
     mkStack ops (ci - 1) false (es ++ [call_undo operation; changed_emit])).
Proof.
  intros Hci Hop. run_body.
  destruct (Z.leb_spec 0 ci), (Z.ltb_spec ci (PyList.len ops)); try lia.
  cbn [andb]. rewrite getitem_nonneg, Hop by done. run_body.
  rewrite <- app_assoc. reflexivity.
Qed.

Lemma redo_run_blocked ops ci es :
  redo (mkStack ops ci true es) = (Blocked, mkStack ops ci true es).
Proof. reflexivity. Qed.

Lemma redo_run_nothing ops ci es :
  ¬ (0 <= ci + 1 < PyList.len ops) →
  redo (mkStack ops ci false es) = (Returned tt, mkStack ops ci false es).
Proof.
  intros Hci. run_body.
  destruct (Z.leb_spec 0 (ci + 1)), (Z.ltb_spec (ci + 1) (PyList.len ops));
    solve [lia | reflexivity].
Qed.

Lemma redo_run_step ops ci es operation :
  0 <= ci + 1 < PyList.len ops →
  ops !! Z.to_nat (ci + 1) = Some operation →
  redo (mkStack ops ci false es)
  = (Returned tt,
     mkStack ops (ci + 1) false (es ++ [call_redo operation; changed_emit])).
Proof.
  intros Hci Hop. run_body.
  destruct (Z.leb_spec 0 (ci + 1)), (Z.ltb_spec (ci + 1) (PyList.len ops));
    try lia.
  cbn [andb]. rewrite getitem_nonneg, Hop by done. run_body.
  rewrite <- app_assoc. reflexivity.
Qed.

(** The operation under an in-range cursor. *)
Lemma operation_at ops ci :
  0 <= ci < PyList.len ops → ∃ operation, ops !! Z.to_nat ci = Some operation.
Proof.
  intros Hci. apply lookup_lt_is_Some. unfold PyList.len in Hci. lia.
Qed.

Lemma added_app s ops ci lk new :
  added s (mkStack ops ci lk (effects s ++ new)) = new.
Proof. unfold added. cbn [effects]. apply drop_app_length. Qed.

Lemma added_same s : added s s = [].
Proof. unfold added. apply drop_all. Qed.
End StackRuns.

(** ** Comparing time stamps *)

Lemma SFcompare_Eq_sym x y :
SFcompare x y = Some Eq → SFcompare y x = Some Eq.
Proof.
destruct x as [sx|sx| |sx mx ex], y as [sy|sy| |sy my ey]; simpl;
  try discriminate; try reflexivity;
  try (destruct sx; discriminate); try (destruct sy; discriminate);
  try (destruct sx, sy; intros; congruence).
change (Pos.compare_cont Eq mx my) with (mx ?= my)%positive.
change (Pos.compare_cont Eq my mx) with (my ?= mx)%positive.
intros Hc.
assert (ex = ey ∧ mx = my) as [-> ->].
{ destruct sx, sy; try discriminate;
    destruct (Z.compare_spec ex ey); try discriminate;
    destruct (Pos.compare_spec mx my); try discriminate; auto. }
rewrite Z.compare_refl, Pos.compare_refl.
destruct sx, sy; try discriminate; reflexivity.
Qed.

(** Two floats that compare equal are not strictly ordered. *)
Lemma float_eqb_not_ltb (x y : float) :
PrimFloat.eqb x y = true → PrimFloat.ltb y x = false.
Proof.
rewrite FloatAxioms.eqb_spec, FloatAxioms.ltb_spec. unfold SFeqb, SFltb.
destruct (SFcompare (Prim2SF x) (Prim2SF y)) as [[]|] eqn:E;
  try discriminate.
intros _. rewrite (SFcompare_Eq_sym _ _ E). reflexivity.
Qed.

(** ** The operation stack: push *)

Section StackPush.
Context {O : Type} `{Operation O}.
Implicit Types (s : OperationStack O) (ops pre : list O) (ci : Z)
  (lk : bool) (es : list (effect O)) (op operation : O).

Lemma len_take_Z ops ci :
  0 <= ci <= PyList.len ops → PyList.len (take (Z.to_nat ci) ops) = ci.
Proof. intros Hci. unfold PyList.len in *. rewrite length_take. lia. Qed.

Lemma len_kept_pushed ops ci operation :
  0 <= ci <= PyList.len ops →
  PyList.len (take (Z.to_nat ci) ops ++ [operation]) = ci + 1.
Proof.
  intros Hci. rewrite len_app, len_take_Z by done. reflexivity.
Qed.

Lemma too_far_apart_spec op1 op2 :
  too_far_apart op1 op2 = true ↔
  _always_merge op1 = false ∧ _always_merge op2 = false ∧
  PrimFloat.ltb _merge_window (distance op1 op2) = true.
Proof.
  unfold too_far_apart, distance.
  destruct (_always_merge op1), (_always_merge op2); cbn [negb andb];
    intuition congruence.
Qed.

(** An uncontended push is lines 34-39, then the merge step, then the
    notification. *)
Lemma push_decomposition s operation :
  consistent s → _lock s = false →
  push operation s
  = (Returned tt,
     after (perform changed_emit)
       (after _doMerge (after (push_record operation) s))).
Proof.
  destruct s as [ops ci lk es]. rewrite consistent_mk. cbn [_lock].
  intros Hci ->. unfold after at 3. rewrite push_record_run by done.
  cbn [snd].
  destruct (decide (ci = -1)) as [->|Hne].
  - rewrite push_run_alone. change (Z.to_nat (-1 + 1)) with 0%nat.
    rewrite take_0, app_nil_l.
    unfold after at 2.
    rewrite doMerge_run_short by (unfold PyList.len; simpl; lia).
    run_body. rewrite <- app_assoc. reflexivity.
  - destruct (operation_at ops ci) as [op2 Hop2]; [lia|].
    rewrite (push_run_onto _ _ _ _ op2) by (done || lia).
    unfold after at 2.
    rewrite (doMerge_after_record _ _ _ _ _ op2) by (done || lia).
    cbn [snd].
    destruct (too_far_apart operation op2);
      [|destruct (mergeWith operation op2)];
      run_body; rewrite <- ?app_assoc; reflexivity.
Qed.

(** What every uncontended push on a consistent stack does. *)
Lemma push_summary s operation :
  consistent s → _lock s = false →
  let s' := after (push operation) s in
  ending (push operation) s = Returned tt ∧
  _lock s' = false ∧
  _current_index s' = PyList.len (_operations s') - 1 ∧
  effects s' = effects s ++ added s s' ∧
  count is_redo (added s s') = 1%nat ∧
  count is_undo (added s s') = 0%nat ∧
  count is_emit (added s s') = 1%nat ∧
  (count is_mergeWith (added s s') <= 1)%nat ∧
  (count is_merge (added s s') <= count is_mergeWith (added s s'))%nat ∧
  PyList.len (_operations s') + Z.of_nat (count is_merge (added s s'))
  = _current_index s + 2.
Proof.
  destruct s as [ops ci lk es]. rewrite consistent_mk. cbn [_lock].
  intros Hci ->. unfold after, ending.
  destruct (decide (ci = -1)) as [->|Hne].
  - rewrite push_run_alone. cbn [fst snd _operations _current_index _lock effects].
    unfold added. cbn [effects]. rewrite drop_app_length.
    repeat split; reflexivity || (cbn; lia).
  - destruct (operation_at ops ci) as [op2 Hop2]; [lia|].
    rewrite (push_run_onto _ _ _ _ op2) by (done || lia).
    destruct (too_far_apart operation op2);
      [|destruct (mergeWith operation op2) as [merged|] eqn:Hm];
      cbn [fst snd _operations _current_index _lock effects];
      unfold added; cbn [effects]; rewrite drop_app_length;
      unfold count; cbn [List.filter is_redo is_undo is_emit is_mergeWith
                           is_merge length];
      rewrite ?Hm; cbn [List.filter length];
      rewrite ?len_kept_pushed by lia;
      repeat split; reflexivity || lia.
Qed.
End StackPush.

Section StackClaims.
Context {O : Type} `{Operation O}.
Implicit Types (s : OperationStack O) (ops pre : list O) (ci : Z)
  (lk : bool) (es : list (effect O)) (op operation : O).

Lemma count_app (p : effect O → bool) es1 es2 :
  count p (es1 ++ es2) = (count p es1 + count p es2)%nat.
Proof. unfold count. rewrite List.filter_app, length_app. reflexivity. Qed.

Lemma last_index_consistent s :
  _current_index s = PyList.len (_operations s) - 1 → consistent s.
Proof.
  intros Hci. unfold consistent. pose proof (len_nonneg (_operations s)). lia.
Qed.

Lemma locked_push_returns s operation :
  _lock s = true →
  ending (push operation) s = Returned tt ∧ after (push operation) s = s.
Proof.
  destruct s as [ops ci lk es]. cbn [_lock]. intros ->.
  unfold ending, after. by rewrite push_run_locked.
Qed.

(** The two ways an [undo] can go. *)
Lemma undo_cases s :
  (after undo s = s ∧ (ending undo s = Blocked ∨ ending undo s = Returned tt)
   ∧ (_lock s = true ∨
      ¬ (0 <= _current_index s < PyList.len (_operations s))))
  ∨ (∃ operation,
       _lock s = false ∧
       0 <= _current_index s < PyList.len (_operations s) ∧
       PyList.getitem (_operations s) (_current_index s) = Some operation ∧
       undo s = (Returned tt,
                 mkStack (_operations s) (_current_index s - 1) false
                   (effects s ++ [call_undo operation; changed_emit]))).
Proof.
  destruct s as [ops ci lk es]. unfold after, ending.
  cbn [_operations _current_index _lock effects].
  destruct lk; [left; rewrite undo_run_blocked; auto|].
  destruct (decide (0 <= ci < PyList.len ops)) as [Hin|Hout].
  - right. destruct (operation_at ops ci Hin) as [op Hop]. exists op.
    rewrite getitem_nonneg by done.
    by rewrite (undo_run_step _ _ _ op).
  - left. rewrite undo_run_nothing; auto.
Qed.

(** The two ways a [redo] can go. *)
Lemma redo_cases s :
  (after redo s = s ∧ (ending redo s = Blocked ∨ ending redo s = Returned tt)
   ∧ (_lock s = true ∨
      ¬ (0 <= _current_index s + 1 < PyList.len (_operations s))))
  ∨ (∃ operation,
       _lock s = false ∧
       0 <= _current_index s + 1 < PyList.len (_operations s) ∧
       PyList.getitem (_operations s) (_current_index s + 1)
       = Some operation ∧
       redo s = (Returned tt,
                 mkStack (_operations s) (_current_index s + 1) false
                   (effects s ++ [call_redo operation; changed_emit]))).
Proof.
  destruct s as [ops ci lk es]. unfold after, ending.
  cbn [_operations _current_index _lock effects].
  destruct lk; [left; rewrite redo_run_blocked; auto|].
  destruct (decide (0 <= ci + 1 < PyList.len ops)) as [Hin|Hout].
  - right. destruct (operation_at ops (ci + 1) Hin) as [op Hop]. exists op.
    rewrite getitem_nonneg by done.
    by rewrite (redo_run_step _ _ _ op).
  - left. rewrite redo_run_nothing; auto.
Qed.

Lemma undo_never_raises s e : ending undo s ≠ Raised e.
Proof.
  destruct (undo_cases s) as [(_ & [Hend|Hend] & _)|(op & _ & _ & _ & Hrun)];
    unfold ending in *; rewrite ?Hrun, ?Hend; done.
Qed.

Lemma redo_never_raises s e : ending redo s ≠ Raised e.
Proof.
  destruct (redo_cases s) as [(_ & [Hend|Hend] & _)|(op & _ & _ & _ & Hrun)];
    unfold ending in *; rewrite ?Hrun, ?Hend; done.
Qed.

Lemma undo_consistent s : consistent s → consistent (after undo s).
Proof.
  intros Hs.
  destruct (undo_cases s) as [(-> & _)|(op & _ & Hin & _ & Hrun)]; [done|].
  unfold after. rewrite Hrun. cbn [snd]. rewrite consistent_mk.
  unfold consistent in Hs. lia.
Qed.

Lemma redo_consistent s : consistent s → consistent (after redo s).
Proof.
  intros Hs.
  destruct (redo_cases s) as [(-> & _)|(op & _ & Hin & _ & Hrun)]; [done|].
  unfold after. rewrite Hrun. cbn [snd]. rewrite consistent_mk.
  unfold consistent in Hs. lia.
Qed.

(** A run of pushes from a stack with no redo tail. *)
Lemma pushes_run (l : list O) :
  ∀ s, _lock s = false →
       _current_index s = PyList.len (_operations s) - 1 →
       let s' := after (pushes l) s in
       ending (pushes l) s = Returned tt ∧
       _lock s' = false ∧
       _current_index s' = PyList.len (_operations s') - 1 ∧
       PyList.len (_operations s') + Z.of_nat (count is_merge (effects s'))
       = PyList.len (_operations s) + Z.of_nat (count is_merge (effects s))
         + PyList.len l.
Proof.
  induction l as [|operation rest IH]; intros s Hlk Hci; cbn zeta.
  - unfold after, ending. cbn [pushes ret fst snd].
    change (PyList.len (@nil O)) with 0. rewrite Z.add_0_r. done.
  - pose proof (push_summary s operation (last_index_consistent s Hci) Hlk)
      as (Hend & Hlk1 & Hci1 & Heff & _ & _ & _ & _ & _ & Hlen).
    unfold after, ending in *. cbn [pushes]. unfold bind.
    destruct (push operation s) as [r s1]. cbn [fst snd] in *. subst r.
    specialize (IH s1 Hlk1 Hci1). cbn zeta in IH.
    destruct IH as (IHend & IHlk & IHci & IHlen).
    repeat split; try done.
    rewrite IHlen, Heff, count_app.
    change (operation :: rest) with ([operation] ++ rest).
    rewrite (len_app [operation] rest).
    change (PyList.len [operation]) with 1. lia.
Qed.

(** C1 (as amended): after N uncontended pushes on a new stack every push
    has returned, [currentIndex] is the last index of [operations], and
    [len(operations)] is N less the number of pushes that merged; hence
    [len(operations) <= N], [currentIndex <= N - 1], and
    [currentIndex = N - 1] exactly when no push merged. *)
Theorem pushes_cursor_and_length (l : list O) :
  let N := PyList.len l in
  let s := after (pushes l) init in
  let merged := Z.of_nat (count is_merge (effects s)) in
  ending (pushes l) init = Returned tt ∧
  _current_index s = PyList.len (_operations s) - 1 ∧
  PyList.len (_operations s) = N - merged ∧
  _current_index s = N - 1 - merged ∧
  PyList.len (_operations s) <= N ∧
  (_current_index s = N - 1 ↔ merged = 0).
Proof.
  intros N s merged.
  destruct (pushes_run l init) as (Hend & _ & Hci & Hlen); [done..|].
  fold s in Hci, Hlen. fold merged in Hlen.
  change (PyList.len (_operations init)) with 0 in Hlen.
  change (count is_merge (effects init)) with 0%nat in Hlen.
  fold N in Hlen.
  repeat split; try done; lia.
Qed.

(** C5: a push made while the lock is held returns at once, without an
    exception, and leaves the whole stack as it was: the operation is not
    recorded, the cursor stays, and neither [redo()] nor the change
    notification is invoked. *)
Theorem push_dropped_when_lock_held s operation :
  _lock s = true →
  ending (push operation) s = Returned tt ∧
  after (push operation) s = s ∧
  _operations (after (push operation) s) = _operations s ∧
  _current_index (after (push operation) s) = _current_index s ∧
  added s (after (push operation) s) = [].
Proof.
  destruct s as [ops ci lk es]. cbn [_lock]. intros ->.
  unfold ending, after. rewrite push_run_locked. cbn [fst snd].
  repeat split. apply added_same.
Qed.

(** C6: [-1 <= currentIndex <= len(operations) - 1] holds of a new stack
    and is kept by [push], [undo] and [redo], none of which raises on a
    consistent stack; a push that took the lock returns and leaves
    [currentIndex = len(operations) - 1]. *)
Theorem cursor_invariant :
  consistent (@init O) ∧
  ∀ s, consistent s →
    (∀ operation, consistent (after (push operation) s)) ∧
    consistent (after undo s) ∧
    consistent (after redo s) ∧
    (∀ operation e, ending (push operation) s ≠ Raised e) ∧
    (∀ e, ending undo s ≠ Raised e) ∧
    (∀ e, ending redo s ≠ Raised e) ∧
    (∀ operation, _lock s = false →
       ending (push operation) s = Returned tt ∧
       _current_index (after (push operation) s)
       = PyList.len (_operations (after (push operation) s)) - 1).
Proof.
  split; [unfold consistent, init, PyList.len; simpl; lia|].
  intros s Hs.
  assert (Hpush : ∀ operation,
             consistent (after (push operation) s) ∧
             ∀ e, ending (push operation) s ≠ Raised e).
  { intros operation. destruct (_lock s) eqn:Hlk.
    - destruct (locked_push_returns s operation Hlk) as [-> ->].
      done.
    - destruct (push_summary s operation Hs Hlk) as (-> & _ & Hci & _).
      split; [by apply last_index_consistent|done]. }
  split; [intros; apply Hpush|].
  split; [by apply undo_consistent|].
  split; [by apply redo_consistent|].
  split; [intros; apply Hpush|].
  split; [apply undo_never_raises|].
  split; [apply redo_never_raises|].
  intros operation Hlk.
  by destruct (push_summary s operation Hs Hlk) as (-> & _ & -> & _).
Qed.

(** The stack that lines 34-39 leave, on a consistent stack. *)
Lemma record_shape s operation :
  consistent s →
  let s5 := after (push_record operation) s in
  _lock s5 = _lock s ∧
  effects s5 = effects s ++ [call_redo operation] ∧
  _operations s5
  = take (Z.to_nat (_current_index s + 1)) (_operations s) ++ [operation] ∧
  _current_index s5 = _current_index s + 1 ∧
  PyList.len (_operations s5) = _current_index s + 2 ∧
  (_current_index s = -1 ∧ _operations s5 = [operation]
   ∨ ∃ op2, 0 <= _current_index s ∧
            PyList.getitem (_operations s) (_current_index s) = Some op2 ∧
            _operations s5
            = take (Z.to_nat (_current_index s)) (_operations s)
              ++ [op2; operation]).
Proof.
  destruct s as [ops ci lk es]. rewrite consistent_mk. intros Hci.
  unfold after. rewrite push_record_run by done.
  cbn [snd _operations _current_index _lock effects].
  repeat split.
  - rewrite len_kept_pushed by lia. lia.
  - destruct (decide (ci = -1)) as [->|Hne]; [left; by split|right].
    destruct (operation_at ops ci) as [op2 Hop2]; [lia|].
    exists op2. rewrite getitem_nonneg by lia. repeat split; [lia|done|].
    replace (Z.to_nat (ci + 1)) with (S (Z.to_nat ci)) by lia.
    by rewrite (take_S_r ops (Z.to_nat ci) op2 Hop2), <- app_assoc.
Qed.

(** C4: an uncontended push onto a consistent stack with a redo tail
    keeps the [currentIndex + 1] operations up to the cursor, drops the
    rest, appends the operation after them, calls its [redo()] once and
    moves the cursor to the new last index. *)
Theorem push_discards_redo_tail s operation :
  consistent s → _lock s = false →
  _current_index s < PyList.len (_operations s) - 1 →
  let kept := take (Z.to_nat (_current_index s + 1)) (_operations s) in
  let s5 := after (push_record operation) s in
  let s' := after (push operation) s in
  PyList.len kept = _current_index s + 1 ∧
  _operations s5 = kept ++ [operation] ∧
  added s s5 = [call_redo operation] ∧
  _current_index s5 = PyList.len (_operations s5) - 1 ∧
  s' = after (perform changed_emit) (after _doMerge s5) ∧
  ending (push operation) s = Returned tt ∧
  count is_redo (added s s') = 1%nat ∧
  _current_index s' = PyList.len (_operations s') - 1.
Proof.
  intros Hs Hlk Htail kept s5 s'.
  destruct (record_shape s operation Hs) as (_ & Heff & Hops & Hci & Hlen & _).
  fold s5 in Heff, Hops, Hci, Hlen.
  destruct (push_summary s operation Hs Hlk)
    as (Hend & _ & Hci' & _ & Hredo & _).
  fold s' in Hci', Hredo.
  split; [apply len_take_Z; unfold consistent in Hs; lia|].
  split; [done|].
  split; [unfold added; rewrite Heff; apply drop_app_length|].
  split; [lia|].
  split; [|done].
  unfold s', after at 1. by rewrite push_decomposition.
Qed.

Lemma doMerge_short (t : OperationStack O) :
  PyList.len (_operations t) < 2 → _doMerge t = (Returned tt, t).
Proof. destruct t. apply doMerge_run_short. Qed.

Lemma doMerge_at_top (t : OperationStack O) pre op2 op1 :
  _operations t = pre ++ [op2; op1] →
  _current_index t = PyList.len pre + 1 →
  _doMerge t
  = (Returned tt,
     if too_far_apart op1 op2 then t
     else
       match mergeWith op1 op2 with
       | Some merged =>
           mkStack (pre ++ [merged]) (PyList.len pre) (_lock t)
             (effects t ++ [call_mergeWith op1 op2])
       | None =>
           mkStack (_operations t) (_current_index t) (_lock t)
             (effects t ++ [call_mergeWith op1 op2])
       end).
Proof.
  destruct t as [ops ci lk es]. cbn [_operations _current_index _lock effects].
  intros -> ->. apply doMerge_run_top.
Qed.

Lemma getitem_top pre (op2 op1 : O) :
  PyList.getitem (pre ++ [op2; op1]) (PyList.len pre + 1) = Some op1 ∧
  PyList.getitem (pre ++ [op2; op1]) (PyList.len pre + 1 - 1) = Some op2.
Proof.
  pose proof (len_nonneg pre) as Hpre.
  assert (Hlen : PyList.len (pre ++ [op2; op1]) = PyList.len pre + 2)
    by (rewrite len_app; reflexivity).
  split; rewrite getitem_nonneg by lia.
  - replace (Z.to_nat (PyList.len pre + 1)) with (S (length pre))
      by (unfold PyList.len; lia).
    rewrite lookup_app_r by lia.
    by replace (S (length pre) - length pre)%nat with 1%nat by lia.
  - replace (Z.to_nat (PyList.len pre + 1 - 1)) with (length pre)
      by (unfold PyList.len; lia).
    rewrite lookup_app_r by lia. by rewrite Nat.sub_diag.
Qed.

(** C3: on a consistent stack, when the merge step of an uncontended push
    is eligible and [mergeWith] hands back an operation, the two top
    operations are deleted (at [currentIndex], then at
    [currentIndex - 1]), the cursor goes down by one and the merged
    operation is appended, so the stack is one entry shorter; when the
    step is ineligible or [mergeWith] declines, the sequence and the
    cursor stay as lines 34-39 left them; a push calls [mergeWith] at
    most once. *)
Theorem merge_step s operation :
  consistent s → _lock s = false →
  let s5 := after (push_record operation) s in
  let s6 := after _doMerge s5 in
  let s' := after (push operation) s in
  (_operations s' = _operations s6 ∧ _current_index s' = _current_index s6) ∧
  (∀ op2 merged,
     2 <= PyList.len (_operations s5) →
     PyList.getitem (_operations s5) (_current_index s5 - 1) = Some op2 →
     too_far_apart operation op2 = false →
     mergeWith operation op2 = Some merged →
     ∃ l1 l2,
       PyList.delitem (_operations s5) (_current_index s5) = Some l1 ∧
       PyList.delitem l1 (_current_index s5 - 1) = Some l2 ∧
       _operations s5 = l2 ++ [op2; operation] ∧
       _operations s6 = PyList.append l2 merged ∧
       _current_index s6 = _current_index s5 - 1 ∧
       PyList.len (_operations s6) = PyList.len (_operations s5) - 1) ∧
  (PyList.len (_operations s5) < 2
   ∨ (∃ op2,
        PyList.getitem (_operations s5) (_current_index s5 - 1) = Some op2 ∧
        (too_far_apart operation op2 = true
         ∨ mergeWith operation op2 = None)) →
   _operations s6 = _operations s5 ∧ _current_index s6 = _current_index s5) ∧
  (count is_mergeWith (added s s') <= 1)%nat.
Proof.
  intros Hs Hlk s5 s6 s'.
  destruct (record_shape s operation Hs)
    as (_ & _ & Hops & Hci & Hlen & Hshape).
  fold s5 in Hops, Hci, Hlen, Hshape.
  destruct (push_summary s operation Hs Hlk) as (_ & _ & _ & _ & _ & _ & _ & Hcalls & _).
  fold s' in Hcalls.
  split.
  { assert (Hdec : s' = after (perform changed_emit) s6)
      by (unfold s', after at 1; by rewrite push_decomposition).
    rewrite Hdec. by unfold after, perform. }
  destruct Hshape as [[Hempty Hone]|(op2' & Hpos & Hop2' & Htwo)].
  - assert (Hshort : PyList.len (_operations s5) < 2) by lia.
    assert (Hs6 : s6 = s5) by (unfold s6, after; by rewrite doMerge_short).
    split; [intros; lia|]. split; [by rewrite Hs6|done].
  - set (pre := take (Z.to_nat (_current_index s)) (_operations s)) in *.
    assert (Hpre : PyList.len pre = _current_index s).
    { apply len_take_Z. unfold consistent in Hs. lia. }
    assert (Hci5 : _current_index s5 = PyList.len pre + 1) by lia.
    destruct (getitem_top pre op2' operation) as [_ Hget2].
    rewrite <- Htwo, <- Hci5 in Hget2.
    assert (Hrun := doMerge_at_top s5 pre op2' operation Htwo Hci5).
    split; [|split; [|done]].
    + intros op2 merged _ Hget Hnear Hmerged.
      assert (op2 = op2') as -> by congruence.
      exists (pre ++ [op2']), pre.
      rewrite Hnear, Hmerged in Hrun.
      unfold s6, after. rewrite Hrun. cbn [snd _operations _current_index].
      rewrite Htwo, Hci5.
      change (pre ++ [op2'; operation]) with (pre ++ op2' :: [operation]).
      rewrite (cons_middle op2' pre [operation]), app_assoc.
      replace (PyList.len pre + 1) with (PyList.len (pre ++ [op2']))
        by (rewrite len_app; reflexivity).
      rewrite delitem_last.
      replace (PyList.len (pre ++ [op2']) - 1) with (PyList.len pre)
        by (rewrite len_app; change (PyList.len [op2']) with 1; lia).
      rewrite delitem_last.
      repeat split; try done.
      rewrite !len_app. change (PyList.len [merged]) with 1.
      change (PyList.len [op2']) with 1. change (PyList.len [operation]) with 1.
      lia.
    + intros [Hshort|(op2 & Hget & Hwhy)]; [lia|].
      assert (op2 = op2') as -> by congruence.
      unfold s6, after. rewrite Hrun.
      destruct Hwhy as [-> | ->]; [done|].
      by destruct (too_far_apart operation op2').
Qed.

Lemma mergeWith_not_in_plain (a b operation : O) :
  call_mergeWith a b ∉ [call_redo operation; changed_emit].
Proof.
  rewrite !elem_of_cons, elem_of_nil. intros [Heq|[Heq|[]]]; discriminate.
Qed.

Lemma mergeWith_in_merging (a b operation op1 op2 : O) :
  call_mergeWith a b
  ∈ [call_redo operation; call_mergeWith op1 op2; changed_emit]
  ↔ a = op1 ∧ b = op2.
Proof.
  rewrite !elem_of_cons, elem_of_nil. split.
  - intros [Heq|[Heq|[Heq|[]]]]; try discriminate.
    injection Heq as -> ->. done.
  - intros [-> ->]. auto.
Qed.

(** C2: after lines 34-39 of an uncontended push on a consistent stack
    left at least two operations, with [op1] the pushed operation at
    [currentIndex] and [op2] the one at [currentIndex - 1], the push calls
    [op1.mergeWith(op2)] if and only if it is not the case that both
    [alwaysMerge] flags are false and
    [abs(op1.timestamp - op2.timestamp) > 1.0]; it calls [mergeWith] on no
    other pair; and with both flags false and a distance equal to 1.0 the
    call is made. *)
Theorem merge_attempted_iff s operation :
  consistent s → _lock s = false →
  let s5 := after (push_record operation) s in
  let s' := after (push operation) s in
  2 <= PyList.len (_operations s5) →
  ∃ op2,
    PyList.getitem (_operations s5) (_current_index s5) = Some operation ∧
    PyList.getitem (_operations s5) (_current_index s5 - 1) = Some op2 ∧
    (call_mergeWith operation op2 ∈ added s s' ↔
     ¬ (_always_merge operation = false ∧ _always_merge op2 = false ∧
        PrimFloat.ltb _merge_window (distance operation op2) = true)) ∧
    (∀ a b, call_mergeWith a b ∈ added s s' → a = operation ∧ b = op2) ∧
    (_always_merge operation = false → _always_merge op2 = false →
     PrimFloat.eqb (distance operation op2) _merge_window = true →
     call_mergeWith operation op2 ∈ added s s').
Proof.
  intros Hs Hlk s5 s' Hlen.
  destruct (record_shape s operation Hs)
    as (_ & _ & _ & Hci & Hlen5 & [[Hempty _]|(op2 & Hpos & Hop2 & Htwo)]);
    fold s5 in Hci, Hlen5; [lia|]. fold s5 in Htwo.
  set (pre := take (Z.to_nat (_current_index s)) (_operations s)) in *.
  assert (Hpre : PyList.len pre = _current_index s).
  { apply len_take_Z. unfold consistent in Hs. lia. }
  assert (Hci5 : _current_index s5 = PyList.len pre + 1) by lia.
  destruct (getitem_top pre op2 operation) as [Hget1 Hget2].
  rewrite <- Htwo, <- Hci5 in Hget1, Hget2.
  exists op2. split; [done|]. split; [done|].
  assert (Hadded : added s s'
                   = call_redo operation
                     :: (if too_far_apart operation op2 then []
                         else [call_mergeWith operation op2])
                     ++ [changed_emit]).
  { clear Hget1 Hget2 Htwo Hci5 Hci Hlen5 Hlen. subst s5 s' pre.
    destruct s as [ops ci lk es].
    cbn [_operations _current_index _lock] in *. subst lk.
    rewrite getitem_nonneg in Hop2 by (rewrite consistent_mk in Hs; lia).
    unfold after. rewrite consistent_mk in Hs.
    rewrite (push_run_onto _ _ _ _ op2) by (done || lia).
    destruct (too_far_apart operation op2);
      [|destruct (mergeWith operation op2)];
      cbn [snd]; unfold added; cbn [effects]; by rewrite drop_app_length. }
  rewrite Hadded. rewrite <- too_far_apart_spec.
  assert (Hedge : _always_merge operation = false →
                  _always_merge op2 = false →
                  PrimFloat.eqb (distance operation op2) _merge_window = true →
                  too_far_apart operation op2 = false).
  { intros Ha Hb Heq. apply not_true_is_false.
    rewrite too_far_apart_spec. intros (_ & _ & Hlt).
    apply float_eqb_not_ltb in Heq. congruence. }
  destruct (too_far_apart operation op2) eqn:Hfar; cbn [app].
  - split; [|split].
    + split; [intros Hin; by apply mergeWith_not_in_plain in Hin|done].
    + intros a b Hin. by apply mergeWith_not_in_plain in Hin.
    + intros Ha Hb Heq. specialize (Hedge Ha Hb Heq). congruence.
  - split; [|split].
    + split; [done|intros _; by apply mergeWith_in_merging].
    + intros a b Hin. by apply mergeWith_in_merging in Hin.
    + intros _ _ _. by apply mergeWith_in_merging.
Qed.

(** C7: [undo()] and [redo()] leave the [operations] sequence as it is,
    whatever the state.  Each either changes nothing or moves the cursor
    by one and calls [undo()] (respectively [redo()]) of the operation it
    moved over, followed by the notification.  An undone operation is
    still in the sequence, right after the cursor, and the next [redo()]
    applies it again and puts the cursor back. *)
Theorem undo_redo_keep_operations s :
  _operations (after undo s) = _operations s ∧
  _operations (after redo s) = _operations s ∧
  (after undo s = s
   ∨ ∃ operation,
       PyList.getitem (_operations s) (_current_index s) = Some operation ∧
       _current_index (after undo s) = _current_index s - 1 ∧
       added s (after undo s) = [call_undo operation; changed_emit]) ∧
  (after redo s = s
   ∨ ∃ operation,
       PyList.getitem (_operations s) (_current_index s + 1)
       = Some operation ∧
       _current_index (after redo s) = _current_index s + 1 ∧
       added s (after redo s) = [call_redo operation; changed_emit]) ∧
  (∀ operation,
     _lock s = false →
     0 <= _current_index s < PyList.len (_operations s) →
     PyList.getitem (_operations s) (_current_index s) = Some operation →
     let s1 := after undo s in
     added s s1 = [call_undo operation; changed_emit] ∧
     PyList.getitem (_operations s1) (_current_index s1 + 1)
     = Some operation ∧
     canRedo s1 = true ∧
     _operations (after redo s1) = _operations s ∧
     _current_index (after redo s1) = _current_index s ∧
     added s1 (after redo s1) = [call_redo operation; changed_emit]).
Proof.
  assert (Hundo : after undo s = s
            ∨ ∃ operation,
                PyList.getitem (_operations s) (_current_index s)
                = Some operation ∧
                after undo s
                = mkStack (_operations s) (_current_index s - 1) false
                    (effects s ++ [call_undo operation; changed_emit])).
  { destruct (undo_cases s) as [(Hsame & _)|(op & _ & _ & Hop & Hrun)];
      [by left|right].
    exists op. split; [done|]. unfold after. by rewrite Hrun. }
  assert (Hredo : after redo s = s
            ∨ ∃ operation,
                PyList.getitem (_operations s) (_current_index s + 1)
                = Some operation ∧
                after redo s
                = mkStack (_operations s) (_current_index s + 1) false
                    (effects s ++ [call_redo operation; changed_emit])).
  { destruct (redo_cases s) as [(Hsame & _)|(op & _ & _ & Hop & Hrun)];
      [by left|right].
    exists op. split; [done|]. unfold after. by rewrite Hrun. }
  split; [destruct Hundo as [->|(op & _ & ->)]; done|].
  split; [destruct Hredo as [->|(op & _ & ->)]; done|].
  split.
  { destruct Hundo as [?|(op & Hop & ->)]; [by left|right].
    exists op. repeat split; [done|apply added_app]. }
  split.
  { destruct Hredo as [?|(op & Hop & ->)]; [by left|right].
    exists op. repeat split; [done|apply added_app]. }
  intros operation Hlk Hin Hop s1.
  destruct (undo_cases s) as [(_ & _ & [Hheld|Hout])|(op & _ & _ & Hop' & Hrun)];
    [congruence|done|].
  assert (op = operation) as -> by congruence.
  assert (Hs1 : s1 = mkStack (_operations s) (_current_index s - 1) false
                       (effects s ++ [call_undo operation; changed_emit]))
    by (unfold s1, after; by rewrite Hrun).
  assert (Hback : _current_index s - 1 + 1 = _current_index s) by lia.
  rewrite Hs1. cbn [_operations _current_index].
  rewrite Hback.
  split; [apply added_app|]. split; [done|].
  split; [unfold canRedo; cbn [_operations _current_index];
          apply Z.ltb_lt; lia|].
  rewrite getitem_nonneg in Hop by done.
  unfold after.
  rewrite (redo_run_step _ _ _ operation) by (rewrite Hback; done).
  cbn [snd _operations _current_index].
  repeat split; [done|].
  unfold added. cbn [effects]. apply drop_app_length.
Qed.

(** C8: with the cursor below zero or past the end, [undo()] changes
    nothing at all, calls nothing, notifies nobody and raises nothing;
    so does [redo()] when [currentIndex + 1] is out of range.  Each of
    the two emits the notification once when it moved the cursor and not
    at all when it left the stack as it was. *)
Theorem undo_redo_noop s :
  (_current_index s < 0 ∨ PyList.len (_operations s) <= _current_index s →
   after undo s = s ∧ added s (after undo s) = [] ∧
   ∀ e, ending undo s ≠ Raised e) ∧
  (_current_index s + 1 < 0
   ∨ PyList.len (_operations s) <= _current_index s + 1 →
   after redo s = s ∧ added s (after redo s) = [] ∧
   ∀ e, ending redo s ≠ Raised e) ∧
  (after undo s = s ∧ count is_emit (added s (after undo s)) = 0%nat
   ∨ _current_index (after undo s) ≠ _current_index s ∧
     count is_emit (added s (after undo s)) = 1%nat) ∧
  (after redo s = s ∧ count is_emit (added s (after redo s)) = 0%nat
   ∨ _current_index (after redo s) ≠ _current_index s ∧
     count is_emit (added s (after redo s)) = 1%nat).
Proof.
  split; [|split; [|split]].
  - intros Hout.
    destruct (undo_cases s) as [(Hsame & _)|(op & _ & Hin & _)]; [|lia].
    rewrite Hsame. split; [done|]. split; [apply added_same|].
    apply undo_never_raises.
  - intros Hout.
    destruct (redo_cases s) as [(Hsame & _)|(op & _ & Hin & _)]; [|lia].
    rewrite Hsame. split; [done|]. split; [apply added_same|].
    apply redo_never_raises.
  - destruct (undo_cases s) as [(Hsame & _)|(op & _ & _ & _ & Hrun)].
    + left. rewrite Hsame. split; [done|]. by rewrite added_same.
    + right. unfold after. rewrite Hrun. cbn [snd _current_index].
      split; [lia|]. by rewrite added_app.
  - destruct (redo_cases s) as [(Hsame & _)|(op & _ & _ & _ & Hrun)].
    + left. rewrite Hsame. split; [done|]. by rewrite added_same.
    + right. unfold after. rewrite Hrun. cbn [snd _current_index].
      split; [lia|]. by rewrite added_app.
Qed.
End StackClaims.

(** ** The backend's decoders *)

Section BackendClaims.
Variable native : Backend.byteorder.
Implicit Types (data buffer : list Byte.byte) (n i : nat).

Lemma length_groups {A} k n (l : list A) :
  length (Backend.groups k n l) = n.
Proof.
  revert l. induction n as [|n IH]; intros l; cbn [Backend.groups length];
    [done|by rewrite IH].
Qed.

Lemma size_of_nat n : 4 * Z.of_nat n = Z.of_nat (4 * n).
Proof. lia. Qed.

Lemma length_record_at n data i :
  (S i * (4 * n) <= length data)%nat →
  length (Backend.record_at n data i) = (4 * n)%nat.
Proof.
  intros Hfit. unfold Backend.record_at.
  rewrite length_take, length_drop.
  rewrite Nat.mul_succ_l in Hfit. lia.
Qed.

(** The slice that the loop takes for index [i] is the [i]-th record. *)
Lemma slice_record n data i :
  (S i * (4 * n) <= length data)%nat →
  PyList.slice data (Z.of_nat i * (4 * Z.of_nat n))
    (Z.of_nat i * (4 * Z.of_nat n) + 4 * Z.of_nat n)
  = Backend.record_at n data i.
Proof.
  intros Hfit. rewrite size_of_nat, <- Nat2Z.inj_mul.
  rewrite Nat.mul_succ_l in Hfit.
  rewrite slice_nonneg by (unfold PyList.len; lia).
  unfold Backend.record_at. f_equal; [lia|f_equal; lia].
Qed.

Lemma unpack_record n data i :
  (S i * (4 * n) <= length data)%nat →
  Backend.unpack native n (Backend.record_at n data i)
  = Backend.Return (Backend.vertex_at native n data i).
Proof.
  intros Hfit. unfold Backend.unpack.
  rewrite length_record_at by done. by rewrite Nat.eqb_refl.
Qed.

Lemma unpack_loop_run n data (indices : list nat) :
  ∀ result,
    (∀ i, i ∈ indices → (S i * (4 * n) <= length data)%nat) →
    Backend.unpack_loop native n data (Z.of_nat <$> indices) result
    = Backend.Return (result ++ (Backend.vertex_at native n data <$> indices)).
Proof.
  induction indices as [|i rest IH]; intros result Hfit.
  - cbn. by rewrite app_nil_r.
  - cbn [fmap list_fmap Backend.unpack_loop].
    rewrite slice_record by (apply Hfit; left).
    rewrite unpack_record by (apply Hfit; left).
    rewrite IH by (intros j Hj; apply Hfit; by right).
    unfold PyList.append. by rewrite <- app_assoc.
Qed.

Lemma range0_records n data :
  Backend.range0 (PyList.len data / (4 * Z.of_nat n))
  = Z.of_nat <$> seq 0 (length data / (4 * n)).
Proof.
  unfold Backend.range0, PyList.len.
  rewrite size_of_nat, <- Nat2Z.inj_div, Nat2Z.id. done.
Qed.

Lemma records_fit n data i :
  i ∈ seq 0 (length data / (4 * n)) →
  (S i * (4 * n) <= length data)%nat.
Proof.
  rewrite elem_of_seq. intros [_ Hi].
  transitivity (length data / (4 * n) * (4 * n))%nat.
  - apply Nat.mul_le_mono_r. lia.
  - rewrite Nat.mul_comm. apply Nat.Div0.mul_div_le.
Qed.

(** What the shared body computes. *)
Lemma convert_run n data :
  Backend.convert native n data
  = if decide (PyList.len data mod (4 * Z.of_nat n) = 0) then
      (Backend.Return
         (Some (Backend.vertex_at native n data
                  <$> seq 0 (length data / (4 * n)))), [])
    else (Backend.Return None, Backend.incorrect_length).
Proof.
  unfold Backend.convert. rewrite negb_involutive.
  destruct (Z.eqb_spec (PyList.len data mod (4 * Z.of_nat n)) 0) as [Hz|Hnz].
  - rewrite decide_True by done.
    rewrite range0_records, unpack_loop_run by apply records_fit. done.
  - by rewrite decide_False.
Qed.

(** The vertices of a buffer that holds whole records: one per record,
    each the [n] floats of its record. *)
Lemma vertices_by_record n data :
  PyList.len data mod (4 * Z.of_nat n) = 0 →
  let vertices :=
    Backend.vertex_at native n data <$> seq 0 (length data / (4 * n)) in
  (length vertices * (4 * n) = length data)%nat ∧
  ∀ i vertex,
    vertices !! i = Some vertex →
    length (Backend.record_at n data i) = (4 * n)%nat ∧
    vertex
    = Backend.unpack_f native <$> Backend.groups 4 n (Backend.record_at n data i) ∧
    length vertex = n.
Proof.
  intros Hmod vertices. split.
  - unfold vertices. rewrite length_fmap, length_seq.
    unfold PyList.len in Hmod. rewrite size_of_nat, <- Nat2Z.inj_mod in Hmod.
    assert (Hnat : (length data mod (4 * n) = 0)%nat) by lia.
    apply Nat.Div0.div_exact in Hnat. lia.
  - intros i vertex Hi. unfold vertices in Hi.
    rewrite list_lookup_fmap in Hi.
    destruct (seq 0 (length data / (4 * n)) !! i) as [j|] eqn:Hj;
      [|discriminate].
    apply lookup_seq in Hj as [-> Hlt]. cbn in Hi. injection Hi as <-.
    split; [|split; [done|]].
    + apply length_record_at, records_fit, elem_of_seq. lia.
    + unfold Backend.vertex_at. by rewrite length_fmap, length_groups.
Qed.

(** C9: a buffer whose length is not a multiple of the record size (12
    bytes for three floats, 24 for six) makes the decoder log an error
    and return [None], without raising; any other buffer gives, without
    a log line, a list with one tuple per record, the tuple at position
    [i] holding the 3 (respectively 6) floats unpacked from the [i]-th
    record of 12 (respectively 24) consecutive bytes. *)
Theorem decoders_by_record data :
  (PyList.len data mod 12 ≠ 0 →
   Backend.convertBytesToVerticeList native data
   = (Backend.Return None, Backend.incorrect_length)) ∧
  (PyList.len data mod 12 = 0 →
   ∃ vertices,
     Backend.convertBytesToVerticeList native data
     = (Backend.Return (Some vertices), []) ∧
     (length vertices * 12 = length data)%nat ∧
     ∀ i vertex,
       vertices !! i = Some vertex →
       length (Backend.record_at 3 data i) = 12%nat ∧
       vertex
       = Backend.unpack_f native
           <$> Backend.groups 4 3 (Backend.record_at 3 data i) ∧
       length vertex = 3%nat) ∧
  (PyList.len data mod 24 ≠ 0 →
   Backend.convertBytesToVerticeWithNormalsList native data
   = (Backend.Return None, Backend.incorrect_length)) ∧
  (PyList.len data mod 24 = 0 →
   ∃ vertices,
     Backend.convertBytesToVerticeWithNormalsList native data
     = (Backend.Return (Some vertices), []) ∧
     (length vertices * 24 = length data)%nat ∧
     ∀ i vertex,
       vertices !! i = Some vertex →
       length (Backend.record_at 6 data i) = 24%nat ∧
       vertex
       = Backend.unpack_f native
           <$> Backend.groups 4 6 (Backend.record_at 6 data i) ∧
       length vertex = 6%nat).
Proof.
  unfold Backend.convertBytesToVerticeList,
    Backend.convertBytesToVerticeWithNormalsList.
  rewrite !convert_run.
  change (4 * Z.of_nat 3) with 12. change (4 * Z.of_nat 6) with 24.
  split; [|split; [|split]].
  - intros Hbad. by rewrite decide_False.
  - intros Hgood. rewrite decide_True by done.
    eexists. split; [reflexivity|].
    apply (vertices_by_record 3 data Hgood).
  - intros Hbad. by rewrite decide_False.
  - intros Hgood. rewrite decide_True by done.
    eexists. split; [reflexivity|].
    apply (vertices_by_record 6 data Hgood).
Qed.

(** C10: on the empty buffer both decoders return the empty list, a
    result and not [None], and log nothing. *)
Theorem decoders_on_empty_buffer :
  Backend.convertBytesToVerticeList native [] = (Backend.Return (Some []), []) ∧
  Backend.convertBytesToVerticeWithNormalsList native []
  = (Backend.Return (Some []), []).
Proof. split; reflexivity. Qed.
End BackendClaims.

(** * The properties at concrete stacks and buffers *)

Import Sample.

Lemma stack_with_tail_consistent : consistent stack_with_tail.
Proof. unfold consistent, PyList.len. simpl. lia. Defined.

Lemma stack_of_two_consistent : consistent stack_of_two.
Proof. unfold consistent, PyList.len. simpl. lia. Defined.

(** The scenario of two mergeable pushes followed by a late one. *)
Example scenario_merge_then_separate :
let s2 := after (pushes [move_a; move_b]) init in
let s3 := after (pushes [move_a; move_b; move_late]) init in
(PyList.len (_operations s2) = 1 ∧ _current_index s2 = 0) ∧
(PyList.len (_operations s3) = 2 ∧ _current_index s3 = 1).
Proof. vm_compute. repeat split. Qed.

(** Time stamps exactly one window apart still merge; half a second more
    and they do not. *)
Example boundary_of_merge_window :
  PyList.len (_operations (after (pushes [move_a; move_edge]) init)) = 1 ∧
  PyList.len (_operations (after (pushes [move_a; move_past_edge]) init)) = 2.
Proof. vm_compute. split; reflexivity. Qed.

(** C1, as stated, fails: two pushes that merge leave the cursor at 0, not
  at N - 1 = 1. *)
Lemma two_merging_pushes_cursor :
let l := [move_a; move_b] in
let s := after (pushes l) init in
¬ (_current_index s = PyList.len l - 1 ∧
   PyList.len (_operations s) <= PyList.len l).
Proof. vm_compute. intros [Hci _]. discriminate. Qed.

Lemma merge_attempted_iff_witness :
consistent stack_of_two ∧ _lock stack_of_two = false ∧
2 <= PyList.len (_operations (after (push_record move_edge) stack_of_two)) ∧
∃ op2,
  PyList.getitem (_operations (after (push_record move_edge) stack_of_two))
    (_current_index (after (push_record move_edge) stack_of_two) - 1)
  = Some op2 ∧
  (∀ a b,
     call_mergeWith a b ∈ added stack_of_two (after (push move_edge) stack_of_two) →
     a = move_edge ∧ b = op2).
Proof.
assert (Hlen : 2 <= PyList.len
                      (_operations (after (push_record move_edge) stack_of_two)))
  by (vm_compute; discriminate).
split; [exact stack_of_two_consistent|]. split; [reflexivity|].
split; [exact Hlen|].
destruct (merge_attempted_iff stack_of_two move_edge
            stack_of_two_consistent eq_refl Hlen)
  as (op2 & _ & Hget & _ & Honly & _).
exists op2. split; [exact Hget|exact Honly].
Defined.

Lemma merge_step_witness :
consistent stack_of_two ∧ _lock stack_of_two = false ∧
(count is_mergeWith (added stack_of_two (after (push turn_c) stack_of_two))
 <= 1)%nat.
Proof.
split; [exact stack_of_two_consistent|]. split; [reflexivity|].
apply (merge_step stack_of_two turn_c stack_of_two_consistent eq_refl).
Defined.

Lemma push_discards_redo_tail_witness :
consistent stack_with_tail ∧ _lock stack_with_tail = false ∧
_current_index stack_with_tail
< PyList.len (_operations stack_with_tail) - 1 ∧
_operations (after (push_record move_b) stack_with_tail)
= take (Z.to_nat (_current_index stack_with_tail + 1))
    (_operations stack_with_tail) ++ [move_b].
Proof.
assert (Htail : _current_index stack_with_tail
                < PyList.len (_operations stack_with_tail) - 1)
  by reflexivity.
split; [exact stack_with_tail_consistent|]. split; [reflexivity|].
split; [exact Htail|].
apply (push_discards_redo_tail stack_with_tail move_b
         stack_with_tail_consistent eq_refl Htail).
Defined.

Lemma push_dropped_when_lock_held_witness :
_lock stack_in_use = true ∧
ending (push move_b) stack_in_use = Returned tt ∧
after (push move_b) stack_in_use = stack_in_use.
Proof.
split; [reflexivity|].
destruct (push_dropped_when_lock_held stack_in_use move_b eq_refl)
  as (Hend & Hsame & _).
split; [exact Hend|exact Hsame].
Defined.

Lemma cursor_invariant_witness :
consistent stack_with_tail ∧
consistent (after (push move_b) stack_with_tail) ∧
consistent (after undo stack_with_tail) ∧
consistent (after redo stack_with_tail).
Proof.
split; [exact stack_with_tail_consistent|].
destruct cursor_invariant as [_ Hkept].
destruct (Hkept stack_with_tail stack_with_tail_consistent)
  as (Hpush & Hundo & Hredo & _).
split; [exact (Hpush move_b)|]. split; [exact Hundo|exact Hredo].
Defined.

Lemma undo_redo_keep_operations_witness :
_lock stack_of_two = false ∧
0 <= _current_index stack_of_two < PyList.len (_operations stack_of_two) ∧
PyList.getitem (_operations stack_of_two) (_current_index stack_of_two)
= Some move_late ∧
_operations (after redo (after undo stack_of_two)) = _operations stack_of_two ∧
_current_index (after redo (after undo stack_of_two))
= _current_index stack_of_two.
Proof.
assert (Hin : 0 <= _current_index stack_of_two
              < PyList.len (_operations stack_of_two))
  by (split; [discriminate|reflexivity]).
split; [reflexivity|]. split; [exact Hin|]. split; [reflexivity|].
destruct (undo_redo_keep_operations stack_of_two)
  as (_ & _ & _ & _ & Hround).
destruct (Hround move_late eq_refl Hin eq_refl)
  as (_ & _ & _ & Hops & Hci & _).
split; [exact Hops|exact Hci].
Defined.

Lemma undo_redo_noop_witness :
(_current_index (@init operation) < 0
 ∨ PyList.len (_operations (@init operation)) <= _current_index (@init operation)) ∧
after undo (@init operation) = init ∧
(_current_index stack_of_two + 1 < 0
 ∨ PyList.len (_operations stack_of_two) <= _current_index stack_of_two + 1) ∧
after redo stack_of_two = stack_of_two.
Proof.
assert (Hlow : _current_index (@init operation) < 0
               ∨ PyList.len (_operations (@init operation))
                 <= _current_index (@init operation))
  by (left; reflexivity).
assert (Hhigh : _current_index stack_of_two + 1 < 0
                ∨ PyList.len (_operations stack_of_two)
                  <= _current_index stack_of_two + 1)
  by (right; discriminate).
destruct (undo_redo_noop (@init operation)) as (Hundo & _).
destruct (undo_redo_noop stack_of_two) as (_ & Hredo & _).
split; [exact Hlow|]. split; [exact (proj1 (Hundo Hlow))|].
split; [exact Hhigh|exact (proj1 (Hredo Hhigh))].
Defined.

Example decode_one_vertex :
Backend.convertBytesToVerticeList Backend.little_endian one_vertex
= (Backend.Return (Some [[1%float; (-2)%float; 10%float]]), []).
Proof. vm_compute. reflexivity. Qed.

Example decode_one_vertex_as_normals :
Backend.convertBytesToVerticeWithNormalsList Backend.little_endian one_vertex
= (Backend.Return None, Backend.incorrect_length).
Proof. vm_compute. reflexivity. Qed.

Lemma decoders_by_record_witness :
PyList.len one_vertex mod 12 = 0 ∧
PyList.len one_vertex mod 24 ≠ 0 ∧
(∃ vertices,
   Backend.convertBytesToVerticeList Backend.little_endian one_vertex
   = (Backend.Return (Some vertices), []) ∧
   (length vertices * 12 = length one_vertex)%nat) ∧
Backend.convertBytesToVerticeWithNormalsList Backend.little_endian one_vertex
= (Backend.Return None, Backend.incorrect_length).
Proof.
assert (Hgood : PyList.len one_vertex mod 12 = 0) by reflexivity.
assert (Hbad : PyList.len one_vertex mod 24 ≠ 0) by discriminate.
destruct (decoders_by_record Backend.little_endian one_vertex)
  as (_ & Hthree & Hsix & _).
split; [exact Hgood|]. split; [exact Hbad|].
split; [|exact (Hsix Hbad)].
destruct (Hthree Hgood) as (vertices & Hrun & Hcount & _).
exists vertices. split; [exact Hrun|exact Hcount].
Defined.

(** * Further properties of the operation stack *)

Section StackLock.
Context {O : Type} `{Operation O}.
Implicit Types (s t : OperationStack O) (ops : list O) (ci : Z)
  (es : list (effect O)) (operation : O).

Lemma try_finally_releases {A} (body : M A) t :
  _lock (after (try_finally body lock_release) t) = false.
Proof.
  unfold after, try_finally, lock_release. by destruct (body t) as [r t'].
Qed.

Lemma push_keeps_lock s operation :
  _lock (after (push operation) s) = _lock s.
Proof.
  destruct s as [ops ci [|] es].
  - unfold after. by rewrite push_run_locked.
  - unfold push, bind, lock_acquire_nonblocking, after.
    cbn [_lock negb _operations _current_index effects].
    apply (try_finally_releases
             (bind (push_record operation)
                (λ _, bind _doMerge (λ _, perform changed_emit)))).
Qed.

Lemma undo_keeps_lock s : _lock (after undo s) = _lock s.
Proof.
  destruct (undo_cases s) as [(-> & _)|(op & Hlk & _ & _ & Hrun)]; [done|].
  unfold after. by rewrite Hrun, Hlk.
Qed.

Lemma redo_keeps_lock s : _lock (after redo s) = _lock s.
Proof.
  destruct (redo_cases s) as [(-> & _)|(op & Hlk & _ & _ & Hrun)]; [done|].
  unfold after. by rewrite Hrun, Hlk.
Qed.

(** X1: whatever the state, consistent or not, a method leaves the lock as
    it found it: a call that took the lock has released it when it ends,
    also when it ended in an exception, and a call made while the lock is
    held leaves it held.  [getOperations] changes nothing; it hands back
    the sequence when the lock is free and waits when it is held. *)
Theorem lock_discipline s operation :
  _lock (after (push operation) s) = _lock s ∧
  _lock (after undo s) = _lock s ∧
  _lock (after redo s) = _lock s ∧
  after getOperations s = s ∧
  ending getOperations s
  = (if _lock s then Blocked else Returned (_operations s)).
Proof.
  split; [apply push_keeps_lock|].
  split; [apply undo_keeps_lock|].
  split; [apply redo_keeps_lock|].
  by destruct s as [ops ci [|] es].
Qed.

Lemma getitem_beyond {A} (l : list A) i :
  PyList.len l <= i → PyList.getitem l i = None.
Proof.
  intros Hi. pose proof (len_nonneg l) as Hl.
  unfold PyList.getitem, PyList.position.
  destruct (Z.ltb_spec i 0); [lia|].
  destruct (Z.leb_spec 0 i); [|lia].
  by destruct (Z.ltb_spec i (PyList.len l)); [lia|].
Qed.

(** X2: on a stack whose cursor is past the end of a non-empty sequence,
    an uncontended push ends in [IndexError], raised by the merge step:
    by then the operation has been appended and applied and the cursor
    advanced, no notification is sent, and the lock is released. *)
Theorem push_past_end_raises s operation :
  _lock s = false →
  1 <= PyList.len (_operations s) →
  PyList.len (_operations s) <= _current_index s →
  push operation s
  = (Raised IndexError,
     mkStack (_operations s ++ [operation]) (_current_index s + 1) false
       (effects s ++ [call_redo operation])).
Proof.
  destruct s as [ops ci lk es].
  cbn [_operations _current_index _lock effects]. intros -> Hlen Hci.
  run_body.
  destruct (Z.ltb_spec ci (PyList.len ops - 1)); [lia|]. run_body.
  assert (Hlen' : PyList.len (ops ++ [operation]) = PyList.len ops + 1)
    by (rewrite len_app; reflexivity).
  destruct (Z.leb_spec 2 (PyList.len (ops ++ [operation]))); [|lia].
  rewrite getitem_beyond by lia. reflexivity.
Qed.
End StackLock.

Section StackQueries.
Context {O : Type} `{Operation O}.
Implicit Types (s t : OperationStack O) (ops kept : list O) (ci : Z)
  (es : list (effect O)) (operation top : O).

(** X3: on a consistent stack whose lock is free, [canUndo()] and
    [canRedo()] tell what the call will do: [undo()] moves the cursor
    down by one when [canUndo()] holds and changes nothing otherwise;
    [redo()] moves it up by one when [canRedo()] holds and changes nothing
    otherwise. *)
Theorem queries_predict_calls s :
  consistent s → _lock s = false →
  (if canUndo s then _current_index (after undo s) = _current_index s - 1
   else after undo s = s) ∧
  (if canRedo s then _current_index (after redo s) = _current_index s + 1
   else after redo s = s).
Proof.
  intros Hs Hlk. unfold consistent in Hs. split.
  - unfold canUndo.
    destruct (undo_cases s)
      as [(Hsame & _ & [Hheld|Hout])|(op & _ & Hin & _ & Hrun)].
    + congruence.
    + destruct (Z.leb_spec 0 (_current_index s)); [lia|done].
    + destruct (Z.leb_spec 0 (_current_index s)); [|lia].
      unfold after. by rewrite Hrun.
  - unfold canRedo.
    destruct (redo_cases s)
      as [(Hsame & _ & [Hheld|Hout])|(op & _ & Hin & _ & Hrun)].
    + congruence.
    + destruct (Z.ltb_spec (_current_index s)
                  (PyList.len (_operations s) - 1)); [lia|done].
    + destruct (Z.ltb_spec (_current_index s)
                  (PyList.len (_operations s) - 1)); [|lia].
      unfold after. by rewrite Hrun.
Qed.

(** The stack an uncontended push leaves: what was kept of the old
    sequence, and on top of it the pushed operation or the one it was
    merged into. *)
Lemma push_result_shape s operation :
  consistent s → _lock s = false →
  ∃ kept top,
    push operation s
    = (Returned tt,
       mkStack (kept ++ [top]) (PyList.len kept) false
         (effects s ++ added s (after (push operation) s))) ∧
    (kept = take (Z.to_nat (_current_index s + 1)) (_operations s) ∧
     PyList.len kept = _current_index s + 1 ∧ top = operation
     ∨ ∃ op2,
         kept = take (Z.to_nat (_current_index s)) (_operations s) ∧
         PyList.len kept = _current_index s ∧
         PyList.getitem (_operations s) (_current_index s) = Some op2 ∧
         too_far_apart operation op2 = false ∧
         mergeWith operation op2 = Some top).
Proof.
  destruct s as [ops ci lk es]. rewrite consistent_mk.
  cbn [_operations _current_index _lock effects]. intros Hci ->.
  unfold after.
  destruct (decide (ci = -1)) as [->|Hne].
  - exists [], operation. rewrite push_run_alone. cbn [snd].
    rewrite added_app. split; [done|]. left. by rewrite take_0.
  - destruct (operation_at ops ci) as [op2 Hop2]; [lia|].
    rewrite (push_run_onto _ _ _ _ op2) by (done || lia).
    destruct (too_far_apart operation op2) eqn:Hfar;
      [|destruct (mergeWith operation op2) as [merged|] eqn:Hm];
      cbn [snd]; rewrite added_app.
    + exists (take (Z.to_nat (ci + 1)) ops), operation.
      rewrite len_take_Z by lia. split; [done|]. by left.
    + exists (take (Z.to_nat ci) ops), merged.
      rewrite len_take_Z by lia. split; [done|]. right. exists op2.
      by rewrite getitem_nonneg by lia.
    + exists (take (Z.to_nat (ci + 1)) ops), operation.
      rewrite len_take_Z by lia. split; [done|]. by left.
Qed.

Lemma getitem_last kept top :
  PyList.getitem (kept ++ [top]) (PyList.len kept) = Some top.
Proof.
  pose proof (len_nonneg kept).
  rewrite getitem_nonneg
    by (rewrite len_app; change (PyList.len [top]) with 1; lia).
  unfold PyList.len. rewrite Nat2Z.id. apply list_lookup_middle. done.
Qed.

(** X4: right after an uncontended push on a consistent stack there is
    something to undo and nothing to redo: [canUndo()] holds, [canRedo()]
    does not, and [redo()] returns without changing anything. *)
Theorem after_push_nothing_to_redo s operation :
  consistent s → _lock s = false →
  let s' := after (push operation) s in
  canUndo s' = true ∧ canRedo s' = false ∧
  after redo s' = s' ∧ ending redo s' = Returned tt.
Proof.
  intros Hs Hlk s'.
  destruct (push_result_shape s operation Hs Hlk) as (kept & top & Hrun & _).
  assert (Hs' : s' = mkStack (kept ++ [top]) (PyList.len kept) false
                       (effects s ++ added s (after (push operation) s)))
    by (unfold s', after at 1; by rewrite Hrun).
  rewrite Hs'. clear Hs' Hrun.
  pose proof (len_nonneg kept) as Hkept.
  assert (Hlen : PyList.len (kept ++ [top]) = PyList.len kept + 1)
    by (rewrite len_app; reflexivity).
  unfold canUndo, canRedo, after, ending.
  cbn [_operations _current_index].
  rewrite redo_run_nothing by lia. cbn [fst snd].
  split; [apply Z.leb_le; lia|]. split; [apply Z.ltb_ge; lia|done].
Qed.

(** X5: right after an uncontended push on a consistent stack, [undo()]
    reverses the operation on top of the sequence, which is the pushed
    operation or, when the push merged, the operation that [mergeWith]
    handed back; the operation stays in the sequence and [canRedo()]
    holds. *)
Theorem undo_after_push s operation :
  consistent s → _lock s = false →
  let s' := after (push operation) s in
  ∃ top,
    PyList.getitem (_operations s') (_current_index s') = Some top ∧
    (top = operation
     ∨ ∃ op2,
         PyList.getitem (_operations s) (_current_index s) = Some op2 ∧
         mergeWith operation op2 = Some top) ∧
    added s' (after undo s') = [call_undo top; changed_emit] ∧
    _operations (after undo s') = _operations s' ∧
    _current_index (after undo s') = _current_index s' - 1 ∧
    canRedo (after undo s') = true.
Proof.
  intros Hs Hlk s'.
  destruct (push_result_shape s operation Hs Hlk)
    as (kept & top & Hrun & Hshape).
  assert (Hs' : s' = mkStack (kept ++ [top]) (PyList.len kept) false
                       (effects s ++ added s (after (push operation) s)))
    by (unfold s', after at 1; by rewrite Hrun).
  rewrite Hs'. clear Hs' Hrun. cbn [_operations _current_index].
  pose proof (len_nonneg kept) as Hkept.
  assert (Hlen : PyList.len (kept ++ [top]) = PyList.len kept + 1)
    by (rewrite len_app; reflexivity).
  exists top. split; [apply getitem_last|].
  split.
  { destruct Hshape as [(_ & _ & ->)|(op2 & _ & _ & Hop2 & _ & Hm)];
      [by left|right; by exists op2]. }
  unfold after.
  rewrite (undo_run_step _ _ _ top).
  - cbn [snd _operations _current_index]. unfold added. cbn [effects].
    rewrite drop_app_length. repeat split.
    unfold canRedo. cbn [_operations _current_index]. apply Z.ltb_lt. lia.
  - lia.
  - unfold PyList.len. rewrite Nat2Z.id. by apply list_lookup_middle.
Qed.

(** X6: an uncontended push on a consistent stack leaves every operation
    below the cursor where it was: only the operation under the cursor
    (by a merge) and those after it (by the truncation) can change. *)
Theorem push_keeps_history_below_cursor s operation i :
  consistent s → _lock s = false →
  0 <= i < _current_index s →
  PyList.getitem (_operations (after (push operation) s)) i
  = PyList.getitem (_operations s) i.
Proof.
  intros Hs Hlk Hi. unfold consistent in Hs.
  destruct (push_result_shape s operation Hs Hlk)
    as (kept & top & Hrun & Hshape).
  unfold after. rewrite Hrun. cbn [snd _operations].
  assert (Hkept : kept = take (Z.to_nat (PyList.len kept)) (_operations s) ∧
                  _current_index s <= PyList.len kept).
  { destruct Hshape as [(Hk & Hl & _)|(op2 & Hk & Hl & _)];
      rewrite Hl; split; done || lia. }
  destruct Hkept as [Hkept Hlow].
  rewrite !getitem_nonneg by (rewrite ?len_app; pose proof (len_nonneg [top]); lia).
  rewrite lookup_app_l by (unfold PyList.len in *; lia).
  rewrite Hkept. apply lookup_take_lt. unfold PyList.len in *. lia.
Qed.

(** X7: [redo()] followed by [undo()] comes back: when the lock is free
    and an operation is waiting after the cursor, the two calls apply and
    then reverse that same operation, notify once each, and leave the
    sequence and the cursor as they were. *)
Theorem undo_after_redo s operation :
  _lock s = false →
  0 <= _current_index s + 1 < PyList.len (_operations s) →
  PyList.getitem (_operations s) (_current_index s + 1) = Some operation →
  let s2 := after undo (after redo s) in
  _operations s2 = _operations s ∧
  _current_index s2 = _current_index s ∧
  added s s2
  = [call_redo operation; changed_emit; call_undo operation; changed_emit].
Proof.
  destruct s as [ops ci lk es].
  cbn [_operations _current_index _lock effects]. intros -> Hin Hop.
  rewrite getitem_nonneg in Hop by done.
  cbn zeta. unfold after.
  rewrite (redo_run_step _ _ _ operation) by done. cbn [snd].
  rewrite (undo_run_step _ _ _ operation) by done. cbn [snd].
  cbn [_operations _current_index]. split; [done|]. split; [lia|].
  unfold added. cbn [effects]. rewrite <- app_assoc. apply drop_app_length.
Qed.
End StackQueries.

Section StackWalks.
Context {O : Type} `{Operation O}.
Implicit Types (s t : OperationStack O) (ops kept : list O) (ci : Z)
  (es : list (effect O)) (operation top : O) (k : nat).

Lemma undone_cons operation (l : list O) :
  undone (operation :: l)
  = [call_undo operation; changed_emit] ++ undone l.
Proof. reflexivity. Qed.

Lemma redone_cons operation (l : list O) :
  redone (operation :: l)
  = [call_redo operation; changed_emit] ++ redone l.
Proof. reflexivity. Qed.

Lemma times_succ k (m : M unit) s :
  times (S k) m s
  = match m s with
    | (Returned _, s') => times k m s'
    | (Raised e, s') => (Raised e, s')
    | (Blocked, s') => (Blocked, s')
    end.
Proof. reflexivity. Qed.

Lemma undo_times_run k :
  ∀ ops es,
    (k <= length ops)%nat →
    times k undo (mkStack ops (Z.of_nat k - 1) false es)
    = (Returned tt,
       mkStack ops (-1) false (es ++ undone (reverse (take k ops)))).
Proof.
  induction k as [|k IH]; intros ops es Hk.
  - cbn [times ret]. rewrite take_0. cbn. by rewrite app_nil_r.
  - destruct (lookup_lt_is_Some_2 ops k) as [operation Hop]; [lia|].
    rewrite times_succ.
    rewrite (undo_run_step _ _ _ operation)
      by (unfold PyList.len; (lia || (by replace (Z.to_nat (Z.of_nat (S k) - 1)) with k by lia))).
    replace (Z.of_nat (S k) - 1 - 1) with (Z.of_nat k - 1) by lia.
    rewrite IH by lia.
    rewrite (take_S_r ops k operation Hop), reverse_snoc, undone_cons.
    by rewrite <- app_assoc.
Qed.

Lemma redo_times_run k :
  ∀ ops ci es,
    -1 <= ci → Z.of_nat k = PyList.len ops - 1 - ci →
    times k redo (mkStack ops ci false es)
    = (Returned tt,
       mkStack ops (PyList.len ops - 1) false
         (es ++ redone (drop (Z.to_nat (ci + 1)) ops))).
Proof.
  induction k as [|k IH]; intros ops ci es Hci Hk.
  - cbn [times ret].
    rewrite drop_ge by (unfold PyList.len in *; lia).
    cbn. rewrite app_nil_r. do 2 f_equal. lia.
  - destruct (lookup_lt_is_Some_2 ops (Z.to_nat (ci + 1))) as [operation Hop];
      [unfold PyList.len in *; lia|].
    rewrite times_succ.
    rewrite (redo_run_step _ _ _ operation) by (done || lia).
    rewrite IH by lia.
    rewrite (drop_S ops operation (Z.to_nat (ci + 1)) Hop), redone_cons.
    replace (Z.to_nat (ci + 1 + 1)) with (S (Z.to_nat (ci + 1))) by lia.
    by rewrite <- app_assoc.
Qed.

(** X8: on a consistent stack whose lock is free, calling [undo()] once
    for every applied operation reverses them all, the most recent first,
    with one notification after each; the sequence is untouched, the
    cursor ends at -1 and [canUndo()] no longer holds. *)
Theorem undo_walks_back s :
  consistent s → _lock s = false →
  let k := Z.to_nat (_current_index s + 1) in
  let s' := after (times k undo) s in
  ending (times k undo) s = Returned tt ∧
  _operations s' = _operations s ∧
  _current_index s' = -1 ∧
  canUndo s' = false ∧
  added s s' = undone (reverse (take k (_operations s))).
Proof.
  destruct s as [ops ci lk es]. intros Hci Hlk k s'.
  rewrite consistent_mk in Hci.
  cbn [_operations _current_index _lock effects] in *. subst lk.
  assert (Hrun := undo_times_run k ops es).
  replace (Z.of_nat k - 1) with ci in Hrun by lia.
  unfold s', after, ending. rewrite Hrun by (unfold PyList.len in *; lia).
  cbn [fst snd _operations _current_index]. repeat split.
  unfold added. cbn [effects]. apply drop_app_length.
Qed.

(** X9: on a consistent stack whose lock is free, calling [redo()] once
    for every operation after the cursor applies them all again, in the
    order of the sequence, with one notification after each; the sequence
    is untouched, the cursor ends on the last operation and [canRedo()]
    no longer holds. *)
Theorem redo_walks_forward s :
  consistent s → _lock s = false →
  let k := Z.to_nat (PyList.len (_operations s) - 1 - _current_index s) in
  let s' := after (times k redo) s in
  ending (times k redo) s = Returned tt ∧
  _operations s' = _operations s ∧
  _current_index s' = PyList.len (_operations s) - 1 ∧
  canRedo s' = false ∧
  added s s'
  = redone (drop (Z.to_nat (_current_index s + 1)) (_operations s)).
Proof.
  destruct s as [ops ci lk es]. intros Hci Hlk k s'.
  rewrite consistent_mk in Hci.
  cbn [_operations _current_index _lock effects] in *. subst lk.
  assert (Hrun := redo_times_run k ops ci es).
  unfold s', after, ending. rewrite Hrun by lia.
  cbn [fst snd _operations _current_index]. repeat split.
  - unfold canRedo. cbn [_operations _current_index]. apply Z.ltb_irrefl.
  - unfold added. cbn [effects]. apply drop_app_length.
Qed.
End StackWalks.

Section StackPushes.
Context {O : Type} `{Operation O}.
Implicit Types (s t : OperationStack O) (ops kept : list O) (ci : Z)
  (es calls : list (effect O)) (operation top : O).

(** The effects of an uncontended push on a consistent stack: [redo()],
    at most one [mergeWith], none on an empty history, and the
    notification. *)
Lemma push_effects_shape s operation :
  consistent s → _lock s = false →
  ∃ kept top calls,
    push operation s
    = (Returned tt,
       mkStack (kept ++ [top]) (PyList.len kept) false
         (effects s ++ call_redo operation :: calls ++ [changed_emit])) ∧
    (calls = []
     ∨ 0 <= _current_index s ∧ ∃ op2, calls = [call_mergeWith operation op2]).
Proof.
  destruct s as [ops ci lk es]. rewrite consistent_mk.
  cbn [_operations _current_index _lock effects]. intros Hci ->.
  destruct (decide (ci = -1)) as [->|Hne].
  - exists [], operation, []. rewrite push_run_alone. split; [done|by left].
  - destruct (operation_at ops ci) as [op2 Hop2]; [lia|].
    rewrite (push_run_onto _ _ _ _ op2) by (done || lia).
    destruct (too_far_apart operation op2);
      [|destruct (mergeWith operation op2) as [merged|]].
    + exists (take (Z.to_nat (ci + 1)) ops), operation, [].
      rewrite len_take_Z by lia. split; [done|by left].
    + exists (take (Z.to_nat ci) ops), merged, [call_mergeWith operation op2].
      rewrite len_take_Z by lia. split; [done|].
      right. split; [lia|by exists op2].
    + exists (take (Z.to_nat (ci + 1)) ops), operation,
        [call_mergeWith operation op2].
      rewrite len_take_Z by lia. split; [done|].
      right. split; [lia|by exists op2].
Qed.

Lemma filter_is_redo_app es1 es2 :
  List.filter is_redo (es1 ++ es2)
  = List.filter (@is_redo O) es1 ++ List.filter is_redo es2.
Proof. apply List.filter_app. Qed.

(** The effects of a run of pushes from a stack with no redo tail. *)
Lemma pushes_effects (l : list O) :
  ∀ s, _lock s = false →
       _current_index s = PyList.len (_operations s) - 1 →
       ∃ new,
         effects (after (pushes l) s) = effects s ++ new ∧
         List.filter is_redo new = call_redo <$> l ∧
         count is_emit new = length l ∧
         count is_undo new = 0%nat ∧
         (count is_mergeWith new <= length l)%nat ∧
         (_current_index s = -1 → (count is_mergeWith new <= length l - 1)%nat).
Proof.
  induction l as [|operation rest IH]; intros s Hlk Hci.
  - exists []. unfold after. cbn [pushes ret snd]. rewrite app_nil_r.
    repeat split; cbn; lia.
  - destruct (push_effects_shape s operation (last_index_consistent s Hci) Hlk)
      as (kept & top & calls & Hrun & Hcalls).
    unfold after. cbn [pushes]. unfold bind. rewrite Hrun.
    set (s1 := mkStack (kept ++ [top]) (PyList.len kept) false
                 (effects s ++ call_redo operation :: calls ++ [changed_emit])).
    assert (Hci1 : _current_index s1 = PyList.len (_operations s1) - 1).
    { unfold s1. cbn [_operations _current_index]. rewrite len_app.
      change (PyList.len [top]) with 1. lia. }
    destruct (IH s1 eq_refl Hci1)
      as (new & Heff & Hredo & Hemit & Hundo & Hmerge & _).
    unfold after in Heff. rewrite Heff. unfold s1 at 1. cbn [effects].
    exists ((call_redo operation :: calls ++ [changed_emit]) ++ new).
    split; [by rewrite <- app_assoc|].
    assert (Hfirst : List.filter is_redo (call_redo operation :: calls ++ [changed_emit])
                     = [call_redo operation] ∧
                     count is_emit (call_redo operation :: calls ++ [changed_emit])
                     = 1%nat ∧
                     count is_undo (call_redo operation :: calls ++ [changed_emit])
                     = 0%nat ∧
                     (count is_mergeWith (call_redo operation :: calls ++ [changed_emit])
                      <= 1)%nat ∧
                     (_current_index s = -1 →
                      count is_mergeWith (call_redo operation :: calls ++ [changed_emit])
                      = 0%nat)).
    { destruct Hcalls as [->|(Hpos & op2 & ->)];
        repeat split; cbn; lia. }
    destruct Hfirst as (Hr1 & He1 & Hu1 & Hm1 & Hm0).
    rewrite filter_is_redo_app, !count_app, Hr1, He1, Hu1, Hredo, Hemit, Hundo.
    cbn [length fmap list_fmap app].
    repeat split; lia.
Qed.

(** X10: N uncontended pushes on a new stack apply every pushed operation
    exactly once, in the order of the pushes, send N notifications, never
    call [undo()], and call [mergeWith] at most N - 1 times: the first
    push has nothing to merge with. *)
Theorem pushes_apply_each_once (l : list O) :
  let s := after (pushes l) init in
  List.filter is_redo (effects s) = call_redo <$> l ∧
  count is_emit (effects s) = length l ∧
  count is_undo (effects s) = 0%nat ∧
  (count is_mergeWith (effects s) <= length l - 1)%nat.
Proof.
  intros s.
  destruct (pushes_effects l init eq_refl eq_refl)
    as (new & Heff & Hredo & Hemit & Hundo & _ & Hmerge).
  fold s in Heff. cbn [effects init app] in Heff. rewrite Heff.
  repeat split; try done. by apply Hmerge.
Qed.
End StackPushes.

Section StackSessions.
Context {O : Type} `{Operation O}.
Implicit Types (s t : OperationStack O) (r : request O)
  (rs : list (request O)).

Lemma undo_returns s : _lock s = false → ending undo s = Returned tt.
Proof.
  intros Hlk.
  destruct (undo_cases s) as [(Hsame & _)|(op & _ & _ & _ & Hrun)];
    [|unfold ending; by rewrite Hrun].
  destruct s as [ops ci lk es]. cbn [_lock] in Hlk. subst lk.
  destruct (decide (0 <= ci < PyList.len ops)) as [Hin|Hout].
  - destruct (operation_at ops ci Hin) as [op Hop].
    unfold ending. by rewrite (undo_run_step _ _ _ op).
  - unfold ending. by rewrite undo_run_nothing.
Qed.

Lemma redo_returns s : _lock s = false → ending redo s = Returned tt.
Proof.
  intros Hlk.
  destruct (redo_cases s) as [(Hsame & _)|(op & _ & _ & _ & Hrun)];
    [|unfold ending; by rewrite Hrun].
  destruct s as [ops ci lk es]. cbn [_lock] in Hlk. subst lk.
  destruct (decide (0 <= ci + 1 < PyList.len ops)) as [Hin|Hout].
  - destruct (operation_at ops (ci + 1) Hin) as [op Hop].
    unfold ending. by rewrite (redo_run_step _ _ _ op).
  - unfold ending. by rewrite redo_run_nothing.
Qed.

(** One request on a consistent stack whose lock is free. *)
Lemma serve_keeps r s :
  consistent s → _lock s = false →
  ending (serve r) s = Returned tt ∧
  consistent (after (serve r) s) ∧ _lock (after (serve r) s) = false.
Proof.
  intros Hs Hlk. destruct r as [operation| |]; cbn [serve].
  - destruct (push_summary s operation Hs Hlk) as (Hend & Hlk' & Hci & _).
    split; [done|]. split; [by apply last_index_consistent|done].
  - split; [by apply undo_returns|].
    split; [by apply undo_consistent|]. by rewrite undo_keeps_lock.
  - split; [by apply redo_returns|].
    split; [by apply redo_consistent|]. by rewrite redo_keeps_lock.
Qed.

Lemma serve_all_keeps rs :
  ∀ s, consistent s → _lock s = false →
       ending (serve_all rs) s = Returned tt ∧
       consistent (after (serve_all rs) s) ∧
       _lock (after (serve_all rs) s) = false.
Proof.
  induction rs as [|r rest IH]; intros s Hs Hlk; [done|].
  destruct (serve_keeps r s Hs Hlk) as (Hend & Hs' & Hlk').
  unfold after, ending in *. cbn [serve_all]. unfold bind.
  destruct (serve r s) as [o s1]. cbn [fst snd] in *. subst o.
  by apply IH.
Qed.

End StackSessions.

(** * Further properties of the backend *)

Section BackendMore.
Variable native : Backend.byteorder.
Implicit Types (data buffer : list Byte.byte) (n i k : nat).

Lemma groups_app {A} k a b (l : list A) :
  Backend.groups k (a + b) l
  = Backend.groups k a l ++ Backend.groups k b (drop (a * k) l).
Proof.
  revert l. induction a as [|a IH]; intros l; [done|].
  cbn [Nat.add Backend.groups app]. rewrite IH, drop_drop.
  by replace (k + a * k)%nat with (S a * k)%nat by lia.
Qed.

Lemma groups_take {A} k n m (l : list A) :
  (n * k <= m)%nat → Backend.groups k n (take m l) = Backend.groups k n l.
Proof.
  revert m l. induction n as [|n IH]; intros m l Hm; [done|].
  cbn [Backend.groups]. rewrite take_take, Nat.min_l by lia.
  rewrite List.skipn_firstn_comm. by rewrite IH by lia.
Qed.

(** The six floats of a 24-byte record are the three floats of its first
    half followed by the three of its second half. *)
Lemma vertex_at_halves data i :
  Backend.vertex_at native 6 data i
  = Backend.vertex_at native 3 data (2 * i)
    ++ Backend.vertex_at native 3 data (2 * i + 1).
Proof.
  unfold Backend.vertex_at, Backend.record_at.
  change (4 * 6)%nat with 24%nat. change (4 * 3)%nat with 12%nat.
  rewrite <- fmap_app. f_equal.
  rewrite (groups_app 4 3 3), !groups_take by lia.
  rewrite List.skipn_firstn_comm, groups_take by lia.
  rewrite drop_drop.
  replace (2 * i * 12)%nat with (i * 24)%nat by lia.
  by replace ((2 * i + 1) * 12)%nat with (i * 24 + 3 * 4)%nat by lia.
Qed.

Lemma whole_records n data :
  PyList.len data mod (4 * Z.of_nat n) = 0 →
  length data = (length data / (4 * n) * (4 * n))%nat.
Proof.
  intros Hmod. unfold PyList.len in Hmod.
  rewrite size_of_nat, <- Nat2Z.inj_mod in Hmod.
  assert (Hnat : (length data mod (4 * n) = 0)%nat) by lia.
  apply Nat.Div0.div_exact in Hnat. lia.
Qed.

(** X11: on a buffer of whole 24-byte records both decoders return a
    list; the 3-float one returns twice as many vertices, and the vertex
    at position [i] of the 6-float result is the vertices at positions
    [2 i] and [2 i + 1] of the 3-float result put end to end. *)
Theorem normals_are_pairs_of_vertices data :
  PyList.len data mod 24 = 0 →
  ∃ vertices pairs,
    Backend.convertBytesToVerticeList native data
    = (Backend.Return (Some vertices), []) ∧
    Backend.convertBytesToVerticeWithNormalsList native data
    = (Backend.Return (Some pairs), []) ∧
    length vertices = (2 * length pairs)%nat ∧
    ∀ i pair,
      pairs !! i = Some pair →
      ∃ position normal,
        vertices !! (2 * i)%nat = Some position ∧
        vertices !! (2 * i + 1)%nat = Some normal ∧
        pair = position ++ normal.
Proof.
  intros Hmod.
  assert (Hmod12 : PyList.len data mod 12 = 0).
  { apply Z.mod_divide in Hmod as [c Hc]; [|done]. rewrite Hc.
    replace (c * 24) with (c * 2 * 12) by lia. apply Z_mod_mult. }
  pose proof (whole_records 6 data Hmod) as Hlen.
  change (4 * 6)%nat with 24%nat in Hlen.
  set (q := (length data / 24)%nat) in *.
  assert (Hq : (length data / 12 = 2 * q)%nat).
  { rewrite Hlen. replace (q * 24)%nat with (2 * q * 12)%nat by lia.
    by apply Nat.div_mul. }
  unfold Backend.convertBytesToVerticeList,
    Backend.convertBytesToVerticeWithNormalsList.
  rewrite !convert_run.
  change (4 * Z.of_nat 3) with 12. change (4 * Z.of_nat 6) with 24.
  rewrite !decide_True by done.
  change (4 * 3)%nat with 12%nat. change (4 * 6)%nat with 24%nat.
  fold q. rewrite Hq.
  eexists _, _. split; [reflexivity|]. split; [reflexivity|].
  split; [by rewrite !length_fmap, !length_seq|].
  intros i pair Hpair. rewrite list_lookup_fmap in Hpair.
  destruct (seq 0 q !! i) as [j|] eqn:Hj; [|discriminate].
  apply lookup_seq in Hj as [-> Hi]. cbn in Hpair. injection Hpair as <-.
  exists (Backend.vertex_at native 3 data (2 * i)),
    (Backend.vertex_at native 3 data (2 * i + 1)).
  rewrite !list_lookup_fmap, !lookup_seq_lt by lia.
  split; [done|]. split; [done|]. apply vertex_at_halves.
Qed.

Lemma record_at_app_l n (d1 d2 : list Byte.byte) i :
  (S i * (4 * n) <= length d1)%nat →
  Backend.record_at n (d1 ++ d2) i = Backend.record_at n d1 i.
Proof.
  intros Hfit. rewrite Nat.mul_succ_l in Hfit. unfold Backend.record_at.
  rewrite drop_app_le by lia.
  apply take_app_le. rewrite length_drop. lia.
Qed.

Lemma record_at_app_r n (d1 d2 : list Byte.byte) k j :
  length d1 = (k * (4 * n))%nat →
  Backend.record_at n (d1 ++ d2) (k + j) = Backend.record_at n d2 j.
Proof.
  intros Hk. unfold Backend.record_at.
  rewrite Nat.mul_add_distr_r, <- Hk. by rewrite drop_app_add.
Qed.

(** Decoding two buffers of whole records put end to end. *)
Lemma convert_app n (d1 d2 : list Byte.byte) v1 v2 :
  (0 < n)%nat →
  Backend.convert native n d1 = (Backend.Return (Some v1), []) →
  Backend.convert native n d2 = (Backend.Return (Some v2), []) →
  Backend.convert native n (d1 ++ d2) = (Backend.Return (Some (v1 ++ v2)), []).
Proof.
  intros Hn. rewrite !convert_run.
  destruct (decide (PyList.len d1 mod (4 * Z.of_nat n) = 0)) as [H1|];
    [|discriminate].
  destruct (decide (PyList.len d2 mod (4 * Z.of_nat n) = 0)) as [H2|];
    [|discriminate].
  intros Hv1 Hv2.
  rewrite decide_True
    by (rewrite len_app, Zplus_mod, H1, H2; apply Zmod_0_l).
  pose proof (whole_records n d1 H1) as Hl1.
  pose proof (whole_records n d2 H2) as Hl2.
  set (k1 := (length d1 / (4 * n))%nat) in *.
  set (k2 := (length d2 / (4 * n))%nat) in *.
  assert (Hk : (length (d1 ++ d2) / (4 * n) = k1 + k2)%nat).
  { rewrite length_app, Hl1, Hl2, <- Nat.mul_add_distr_r.
    apply Nat.div_mul. lia. }
  assert (Hleft : Backend.vertex_at native n (d1 ++ d2) <$> seq 0 k1 = v1).
  { assert (v1 = Backend.vertex_at native n d1 <$> seq 0 k1) as ->
      by congruence.
    apply list_fmap_ext. intros i j Hj.
    apply lookup_seq in Hj as [-> Hi]. unfold Backend.vertex_at.
    rewrite record_at_app_l; [done|].
    rewrite Hl1. apply Nat.mul_le_mono_r. cbn. lia. }
  assert (Hright : Backend.vertex_at native n (d1 ++ d2) <$> seq (0 + k1) k2
                   = v2).
  { assert (v2 = Backend.vertex_at native n d2 <$> seq 0 k2) as ->
      by congruence.
    cbn [Nat.add]. rewrite <- (Nat.add_0_r k1) at 1.
    rewrite <- fmap_add_seq, <- list_fmap_compose.
    apply list_fmap_ext. intros i j _. unfold compose, Backend.vertex_at.
    by rewrite (record_at_app_r n d1 d2 k1 j Hl1). }
  by rewrite Hk, List.seq_app, fmap_app, Hleft, Hright.
Qed.

(** X12: decoding is piecewise: when two buffers each decode to a list of
    vertices, the buffer made of the first followed by the second decodes
    to the first list followed by the second; for either decoder. *)
Theorem decoders_append d1 d2 v1 v2 :
  (Backend.convertBytesToVerticeList native d1
   = (Backend.Return (Some v1), []) →
   Backend.convertBytesToVerticeList native d2
   = (Backend.Return (Some v2), []) →
   Backend.convertBytesToVerticeList native (d1 ++ d2)
   = (Backend.Return (Some (v1 ++ v2)), [])) ∧
  (Backend.convertBytesToVerticeWithNormalsList native d1
   = (Backend.Return (Some v1), []) →
   Backend.convertBytesToVerticeWithNormalsList native d2
   = (Backend.Return (Some v2), []) →
   Backend.convertBytesToVerticeWithNormalsList native (d1 ++ d2)
   = (Backend.Return (Some (v1 ++ v2)), [])).
Proof.
  split; apply convert_app; lia.
Qed.
End BackendMore.

Section BackendMessages.
Context {K : Type} `{Countable K} {Message Handler Socket : Type}.
Variable type : Message → K.
Variable takeNextMessage : Socket → Message * Socket.
Implicit Types
  (self : Backend.Backend (K:=K) (Handler:=Handler) (Socket:=Socket))
  (message : Message) (socket : Socket) (handler : Handler).

(** X13: [_onMessageReceived] takes one message off the socket and leaves
    the handler table as it is.  A message whose class has no handler is
    dropped with one error line and no handler is called; otherwise the
    handler registered for that class, and no other, is called once with
    the message.  Registering a handler for a class changes what happens
    to messages of that class only. *)
Theorem message_dispatch self message socket :
  takeNextMessage (Backend._socket self) = (message, socket) →
  fst (Backend._onMessageReceived type takeNextMessage self)
  = Backend.mkBackend (Backend._message_handlers self) socket ∧
  (Backend._message_handlers self !! type message = None →
   snd (Backend._onMessageReceived type takeNextMessage self)
   = [Backend.log_error "No handler defined for message of type %s"%string
        (type message)]) ∧
  (∀ handler,
     Backend._message_handlers self !! type message = Some handler →
     snd (Backend._onMessageReceived type takeNextMessage self)
     = [Backend.call_handler handler message]) ∧
  (∀ class handler,
     let registered :=
       Backend.mkBackend (<[class:=handler]> (Backend._message_handlers self))
         (Backend._socket self) in
     (type message = class →
      snd (Backend._onMessageReceived type takeNextMessage registered)
      = [Backend.call_handler handler message]) ∧
     (type message ≠ class →
      snd (Backend._onMessageReceived type takeNextMessage registered)
      = snd (Backend._onMessageReceived type takeNextMessage self))).
Proof.
  intros Htake. unfold Backend._onMessageReceived.
  cbn [Backend._socket Backend._message_handlers]. rewrite Htake.
  cbn [Backend._message_handlers].
  split; [by destruct (Backend._message_handlers self !! type message)|].
  split; [by intros ->|]. split; [by intros handler ->|].
  intros class handler. split.
  - intros <-. by rewrite lookup_insert_eq.
  - intros Hother. rewrite lookup_insert_ne by congruence.
    by destruct (Backend._message_handlers self !! type message).
Qed.
End BackendMessages.

(** * The further properties at concrete stacks and buffers *)

Lemma push_past_end_raises_witness :
  _lock stack_past_end = false ∧
  1 <= PyList.len (_operations stack_past_end) ∧
  PyList.len (_operations stack_past_end) <= _current_index stack_past_end ∧
  ending (push move_b) stack_past_end = Raised IndexError.
Proof.
  assert (Hlen : 1 <= PyList.len (_operations stack_past_end))
    by discriminate.
  assert (Hci : PyList.len (_operations stack_past_end)
                <= _current_index stack_past_end) by discriminate.
  split; [reflexivity|]. split; [exact Hlen|]. split; [exact Hci|].
  unfold ending.
  rewrite (push_past_end_raises stack_past_end move_b eq_refl Hlen Hci).
  reflexivity.
Defined.

Lemma queries_predict_calls_witness :
  consistent stack_with_tail ∧ _lock stack_with_tail = false ∧
  (if canUndo stack_with_tail
   then _current_index (after undo stack_with_tail)
        = _current_index stack_with_tail - 1
   else after undo stack_with_tail = stack_with_tail).
Proof.
  split; [exact stack_with_tail_consistent|]. split; [reflexivity|].
  exact (proj1 (queries_predict_calls stack_with_tail
                  stack_with_tail_consistent eq_refl)).
Defined.

Lemma after_push_nothing_to_redo_witness :
  consistent stack_with_tail ∧ _lock stack_with_tail = false ∧
  canRedo (after (push move_b) stack_with_tail) = false.
Proof.
  split; [exact stack_with_tail_consistent|]. split; [reflexivity|].
  exact (proj1 (proj2 (after_push_nothing_to_redo stack_with_tail move_b
                         stack_with_tail_consistent eq_refl))).
Defined.

Lemma undo_after_push_witness :
  consistent stack_of_two ∧ _lock stack_of_two = false ∧
  ∃ top,
    PyList.getitem (_operations (after (push move_edge) stack_of_two))
      (_current_index (after (push move_edge) stack_of_two))
    = Some top ∧
    added (after (push move_edge) stack_of_two)
      (after undo (after (push move_edge) stack_of_two))
    = [call_undo top; changed_emit].
Proof.
  split; [exact stack_of_two_consistent|]. split; [reflexivity|].
  destruct (undo_after_push stack_of_two move_edge
              stack_of_two_consistent eq_refl)
    as (top & Htop & _ & Hadded & _).
  exists top. split; [exact Htop|exact Hadded].
Defined.

Lemma push_keeps_history_below_cursor_witness :
  consistent stack_of_two ∧ _lock stack_of_two = false ∧
  0 <= 0 < _current_index stack_of_two ∧
  PyList.getitem (_operations (after (push move_b) stack_of_two)) 0
  = PyList.getitem (_operations stack_of_two) 0.
Proof.
  assert (Hi : 0 <= 0 < _current_index stack_of_two)
    by (split; [discriminate|reflexivity]).
  split; [exact stack_of_two_consistent|]. split; [reflexivity|].
  split; [exact Hi|].
  exact (push_keeps_history_below_cursor stack_of_two move_b 0
           stack_of_two_consistent eq_refl Hi).
Defined.

Lemma undo_after_redo_witness :
  _lock stack_with_tail = false ∧
  0 <= _current_index stack_with_tail + 1
  < PyList.len (_operations stack_with_tail) ∧
  PyList.getitem (_operations stack_with_tail)
    (_current_index stack_with_tail + 1) = Some move_late ∧
  _current_index (after undo (after redo stack_with_tail))
  = _current_index stack_with_tail.
Proof.
  assert (Hin : 0 <= _current_index stack_with_tail + 1
                < PyList.len (_operations stack_with_tail))
    by (split; [discriminate|reflexivity]).
  split; [reflexivity|]. split; [exact Hin|]. split; [reflexivity|].
  exact (proj1 (proj2 (undo_after_redo stack_with_tail move_late
                         eq_refl Hin eq_refl))).
Defined.

Lemma undo_walks_back_witness :
  consistent stack_of_two ∧ _lock stack_of_two = false ∧
  added stack_of_two
    (after (times (Z.to_nat (_current_index stack_of_two + 1)) undo)
       stack_of_two)
  = undone (reverse (take (Z.to_nat (_current_index stack_of_two + 1))
                       (_operations stack_of_two))).
Proof.
  split; [exact stack_of_two_consistent|]. split; [reflexivity|].
  destruct (undo_walks_back stack_of_two stack_of_two_consistent eq_refl)
    as (_ & _ & _ & _ & Hadded).
  exact Hadded.
Defined.

Lemma redo_walks_forward_witness :
  consistent stack_with_tail ∧ _lock stack_with_tail = false ∧
  canRedo
    (after
       (times
          (Z.to_nat (PyList.len (_operations stack_with_tail) - 1
                     - _current_index stack_with_tail)) redo)
       stack_with_tail)
  = false.
Proof.
  split; [exact stack_with_tail_consistent|]. split; [reflexivity|].
  destruct (redo_walks_forward stack_with_tail stack_with_tail_consistent
              eq_refl)
    as (_ & _ & _ & Hcan & _).
  exact Hcan.
Defined.

(** Undoing both operations of [stack_of_two]: the later one first. *)
Example undo_both :
  added stack_of_two (after (times 2 undo) stack_of_two)
  = [call_undo move_late; changed_emit; call_undo move_a; changed_emit].
Proof. vm_compute. reflexivity. Qed.

Lemma normals_are_pairs_of_vertices_witness :
  PyList.len two_vertices mod 24 = 0 ∧
  ∃ vertices pairs,
    Backend.convertBytesToVerticeList Backend.little_endian two_vertices
    = (Backend.Return (Some vertices), []) ∧
    Backend.convertBytesToVerticeWithNormalsList Backend.little_endian
      two_vertices
    = (Backend.Return (Some pairs), []) ∧
    length vertices = (2 * length pairs)%nat.
Proof.
  assert (Hmod : PyList.len two_vertices mod 24 = 0) by reflexivity.
  split; [exact Hmod|].
  destruct (normals_are_pairs_of_vertices Backend.little_endian two_vertices
              Hmod)
    as (vertices & pairs & Hthree & Hsix & Hlen & _).
  exists vertices, pairs.
  split; [exact Hthree|]. split; [exact Hsix|exact Hlen].
Defined.

Lemma decoders_append_witness :
  Backend.convertBytesToVerticeList Backend.little_endian one_vertex
  = (Backend.Return (Some [[1%float; (-2)%float; 10%float]]), []) ∧
  Backend.convertBytesToVerticeList Backend.little_endian
    (one_vertex ++ one_vertex)
  = (Backend.Return
       (Some ([[1%float; (-2)%float; 10%float]]
              ++ [[1%float; (-2)%float; 10%float]])), []).
Proof.
  assert (Hone : Backend.convertBytesToVerticeList Backend.little_endian
                   one_vertex
                 = (Backend.Return (Some [[1%float; (-2)%float; 10%float]]),
                    []))
    by (vm_compute; reflexivity).
  split; [exact Hone|].
  exact (proj1 (decoders_append Backend.little_endian one_vertex one_vertex
                  _ _) Hone Hone).
Defined.

Lemma message_dispatch_witness :
  take_first (Backend._socket listening_backend) = (1%nat, [2%nat]) ∧
  fst (Backend._onMessageReceived id take_first listening_backend)
  = Backend.mkBackend (Backend._message_handlers listening_backend) [2%nat].
Proof.
  assert (Htake : take_first (Backend._socket listening_backend)
                  = (1%nat, [2%nat])) by reflexivity.
  split; [exact Htake|].
  exact (proj1 (message_dispatch id take_first listening_backend
                  1%nat [2%nat] Htake)).
Defined.

(** The handled message reaches handler 10; the next one, of class 2, has
    no handler and is logged. *)
Example dispatch_known_then_unknown :
  let (backend, first) :=
    Backend._onMessageReceived id take_first listening_backend in
  first = [Backend.call_handler 10%nat 1%nat] ∧
  snd (Backend._onMessageReceived id take_first backend)
  = [Backend.log_error "No handler defined for message of type %s"%string
       2%nat].
Proof. vm_compute. split; reflexivity. Qed.
